(** * ahmi: keyword timelines, segment assembly and final composition

    A shallow embedding of the four Python modules of the repository
    ([audio.py], [draft/segments.py], [final.py], [ahmi.py]) together with
    the properties of the design document that can be settled on them.

    Conventions.
    - A Python [str] is a [string]; a character is a code point below 256
      and every builtin used by the sources ([strip], [rstrip], [lower],
      [split], [replace], [startswith], [endswith], [isalnum], [int]) is
      reproduced on that range.
    - A Python [float] is a binary64 [float] of the kernel.
    - Exceptions are values of [exn]; a computation that touches the file
      system, the installed media engine or standard output is a function
      from a [World] to an outcome and a new [World], so that what is left
      behind by a computation that raised can be inspected.
    - The file system is a tree of nodes under a root, with a working
      directory; a path is followed name by name from the root or from the
      working directory, through directories only, as the operating system
      does ([.], [..], repeated and trailing slashes included).
    - The media engine ([ffmpeg] run through [subprocess.run]) and the
      speech recogniser are outside the repository: the engine is a
      parameter of every definition that invokes it, the recogniser's
      output is an argument. *)

From Stdlib Require Import ZArith String Ascii List Floats Sorted Permutation DecimalString.
From stdpp Require Import gmap strings list sorting.

Local Open Scope string_scope.

(** ** Python's string builtins *)

Module PyStr.

Definition code (c : ascii) : N := N_of_ascii c.

Definition in_range (lo hi : N) (c : ascii) : bool :=
  ((lo <=? code c) && (code c <=? hi))%N.

(** [str.isspace] on one character: TAB..CR, FS..US, space, NEL, NBSP. *)
Definition isspace (c : ascii) : bool :=
  in_range 9 13 c || in_range 28 32 c || (code c =? 133)%N || (code c =? 160)%N.

(** Membership in [string.punctuation]. *)
Definition is_punctuation (c : ascii) : bool :=
  in_range 33 47 c || in_range 58 64 c || in_range 91 96 c || in_range 123 126 c.

(** [str.isdecimal] on one character: 0..9. *)
Definition isdecimal (c : ascii) : bool := in_range 48 57 c.

(** [str.isalnum] on one character. *)
Definition isalnum (c : ascii) : bool :=
  isdecimal c || in_range 65 90 c || in_range 97 122 c
  || (code c =? 170)%N || in_range 178 179 c || (code c =? 181)%N
  || in_range 185 186 c || in_range 188 190 c
  || in_range 192 214 c || in_range 216 246 c || in_range 248 255 c.

Definition isupper (c : ascii) : bool :=
  in_range 65 90 c || in_range 192 214 c || in_range 216 222 c.

Definition lower_char (c : ascii) : ascii :=
  if isupper c then ascii_of_N (code c + 32) else c.

Fixpoint map_chars (f : ascii -> ascii) (s : string) : string :=
  match s with
  | EmptyString => EmptyString
  | String c s' => String (f c) (map_chars f s')
  end.

(** [s.lower()] *)
Definition lower (s : string) : string := map_chars lower_char s.

(** [s.lstrip(chars)], the character set given as a predicate. *)
Fixpoint lstrip (p : ascii -> bool) (s : string) : string :=
  match s with
  | EmptyString => EmptyString
  | String c s' => if p c then lstrip p s' else s
  end.

(** [s.rstrip(chars)] *)
Fixpoint rstrip (p : ascii -> bool) (s : string) : string :=
  match s with
  | EmptyString => EmptyString
  | String c s' =>
      match rstrip p s' with
      | EmptyString => if p c then EmptyString else String c EmptyString
      | r => String c r
      end
  end.

(** [s.strip()] *)
Definition strip (s : string) : string := rstrip isspace (lstrip isspace s).

(** Does the first (last) character of [s] satisfy [p]? *)
Definition starts_in (p : ascii -> bool) (s : string) : bool :=
  match s with
  | EmptyString => false
  | String c _ => p c
  end.

Fixpoint ends_in (p : ascii -> bool) (s : string) : bool :=
  match s with
  | EmptyString => false
  | String c EmptyString => p c
  | String _ s' => ends_in p s'
  end.

(** [s.startswith(t)] *)
Definition startswith (t s : string) : bool := String.prefix t s.

Fixpoint rev_onto (s acc : string) : string :=
  match s with
  | EmptyString => acc
  | String c s' => rev_onto s' (String c acc)
  end.

Definition rev (s : string) : string := rev_onto s EmptyString.

(** [s.endswith(t)] *)
Definition endswith (t s : string) : bool := String.prefix (rev t) (rev s).

(** [s.split(sep)] for a non-empty separator: [skip] counts the characters
    of a separator occurrence still to be dropped, [cur] is the field being
    read, reversed. *)
Fixpoint split_from (sep : string) (skip : nat) (cur : string) (s : string)
  : list string :=
  match s with
  | EmptyString => [rev cur]
  | String c s' =>
      match skip with
      | S k => split_from sep k cur s'
      | O =>
          if String.prefix sep s
          then rev cur :: split_from sep (String.length sep - 1) EmptyString s'
          else split_from sep 0 (String c cur) s'
      end
  end.

Definition split (sep s : string) : list string :=
  split_from sep 0 EmptyString s.

(** [sep.join(l)] *)
Definition join (sep : string) (l : list string) : string := String.concat sep l.

(** [s.replace(old, new)] for a non-empty [old]: the fields between the
    occurrences of [old], joined by [new]. *)
Definition replace (old new s : string) : string := join new (split old s).

(** [int(s)] in base 10, [None] standing for [ValueError]: white space at
    both ends, one optional sign, then decimal digits, where one underscore
    may stand between two digits.  The white space [int] skips is not that
    of [strip]: the separators FS..US are not part of it. *)
Definition int_space (c : ascii) : bool :=
  in_range 9 13 c || (code c =? 32)%N || (code c =? 133)%N || (code c =? 160)%N.

(** The digits read so far have the value [acc]; [after_digit] says that
    the last character read was a digit. *)
Fixpoint digits_value (acc : Z) (after_digit : bool) (s : string) : option Z :=
  match s with
  | EmptyString => if after_digit then Some acc else None
  | String c s' =>
      if isdecimal c
      then digits_value (10 * acc + Z.of_N (code c - 48)) true s'
      else if Ascii.eqb c "_" && after_digit
      then digits_value acc false s'
      else None
  end.

Definition unsigned_value (s : string) : option Z := digits_value 0 false s.

Definition int (s : string) : option Z :=
  match rstrip int_space (lstrip int_space s) with
  | String "-" s' => Z.opp <$> unsigned_value s'
  | String "+" s' => unsigned_value s'
  | s' => unsigned_value s'
  end.

End PyStr.


(** Does the character [c] occur in [s]? *)
Fixpoint has_char (c : ascii) (s : string) : bool :=
  match s with
  | EmptyString => false
  | String x s' => Ascii.eqb x c || has_char c s'
  end.

(** Do all characters of [s] satisfy [p]? *)
Fixpoint all_chars (p : ascii -> bool) (s : string) : bool :=
  match s with
  | EmptyString => true
  | String x s' => p x && all_chars p s'
  end.

(** ** Exceptions and outcomes *)

(** The exception classes the sources raise or let through. *)
Inductive exn : Type :=
  | IndexError
  | ValueError (what : string)
  | FileNotFoundError (what : string)
  | NotADirectoryError (path : string)
  | IsADirectoryError (path : string)
  | FileExistsError (path : string)
  | CalledProcessError (returncode : Z)
  | Exception (what : string).

Inductive result (A : Type) : Type :=
  | Ok (a : A)
  | Raise (e : exn).
Arguments Ok {A} a.
Arguments Raise {A} e.

#[global] Instance exn_eq_dec : EqDecision exn.
Proof. solve_decision. Defined.
#[global] Instance result_eq_dec `{EqDecision A} : EqDecision (result A).
Proof. solve_decision. Defined.

#[global] Instance result_ret : MRet result := @Ok.
#[global] Instance result_bind : MBind result :=
  fun A B f m => match m with Ok a => f a | Raise e => Raise e end.
#[global] Instance result_fmap : FMap result :=
  fun A B f m => match m with Ok a => Ok (f a) | Raise e => Raise e end.

(** [l[i]] *)
Definition index {A} (l : list A) (i : nat) : result A :=
  match l !! i with
  | Some a => Ok a
  | None => Raise IndexError
  end.

(** ** audio.py *)

Module Audio.

Import PyStr.

(** [normalize_word] *)
Definition normalize_word (word : string) : string :=
  lower (rstrip is_punctuation (strip word)).

(** One entry of [transcription['segments'][k]['words']]. *)
Record Word := { word : string; start : float }.

(** An element of [raw_timestamps]. *)
Record RawTimestamp := { raw_Folder : string; raw_starttime : float }.

(** An element of [processed_timestamps]. *)
Record Segment := { Folder : string; starttime : float; endtime : float }.

(** First pass of [process_audio_file]: every keyword occurrence, in the
    order of the transcription. *)
Definition raw_timestamps_of (segments : list (list Word)) (keywords : list string)
  : list RawTimestamp :=
  flat_map (fun words =>
    flat_map (fun w =>
      let normalized_word := normalize_word (word w) in
      if bool_decide (normalized_word ∈ keywords)
      then [ {| raw_Folder := normalized_word; raw_starttime := start w |} ]
      else []) words) segments.

(** The body of the loop that calculates end times, at index [i]. *)
Definition end_time_at (raw_timestamps : list RawTimestamp) (audio_duration : float)
    (i : nat) : result Segment :=
  current ← index raw_timestamps i;
  next_start ←
    (if bool_decide (i + 1 < length raw_timestamps)
     then raw_starttime <$> index raw_timestamps (i + 1)
     else Ok audio_duration);
  Ok {| Folder := raw_Folder current;
        starttime := raw_starttime current;
        endtime := next_start |}.

(** Second part of [process_audio_file], from [raw_timestamps] on. *)
Definition process_timestamps (raw_timestamps : list RawTimestamp)
    (audio_duration : float) : result (list Segment) :=
  match raw_timestamps with
  | [] => Ok []
  | _ =>
      first ← index raw_timestamps 0;
      let raw_timestamps :=
        <[ 0 := {| raw_Folder := raw_Folder first; raw_starttime := 0%float |} ]>
          raw_timestamps in
      mapM (end_time_at raw_timestamps audio_duration)
           (seq 0 (length raw_timestamps))
  end.

(** [process_audio_file], the recogniser's word-level output given. *)
Definition process_audio_file (segments : list (list Word)) (keywords : list string)
    (audio_duration : float) : result (list Segment) :=
  process_timestamps (raw_timestamps_of segments keywords) audio_duration.

(** The same end times by recursion on the list, for reasoning. *)
Fixpoint end_times (raw : list RawTimestamp) (audio_duration : float) : list Segment :=
  match raw with
  | [] => []
  | r :: rest =>
      {| Folder := raw_Folder r;
         starttime := raw_starttime r;
         endtime := match rest with
                    | r' :: _ => raw_starttime r'
                    | [] => audio_duration
                    end |} :: end_times rest audio_duration
  end.

Definition duration (s : Segment) : float := (endtime s - starttime s)%float.

End Audio.


(** ** The world outside the interpreter *)

(** What a node of the file system holds.  A media file is known by its
    playable duration in seconds, a text file that is not a JSON document
    by its lines, a timeline document by the segment list [json.load]
    returns for it. *)
Inductive content : Type :=
  | Directory
  | Media (seconds : float)
  | Lines (lines : list string)
  | Timeline (segments : list Audio.Segment).

(** The lines the programs print, before formatting. *)
Inductive printed : Type :=
  | SkippingSegment (i : nat) (base_name : string) (e : exn)
  | CreatingSegment (i : nat) (base_name : string) (duration : float) (keyword : string)
  | NoJsonFilesFound
  | ProcessingJson (json_file : string)
  | AllSegmentsCreated
  | NoSegmentsFound
  | ProcessingGroup (base_name : string) (n : nat)
  | CreatedFinalVideo (output_file : string)
  | TitleLine (title : string)
  | AllVideosProcessed
  | ErrorLine (e : exn).

(** A node is named by the names on its way down from the root directory,
    which is the node [[]] and always there.  There are no links, and every
    node may be read and written. *)
Abbreviation node := (list string) (only parsing).

Record World : Type := {
  files : list (node * content);    (* the nodes below the root, in listing order *)
  cwd : node;                       (* the working directory of the process *)
  ffmpeg_on_path : bool;            (* [which("ffmpeg") is not None] *)
  stdout : list printed
}.

Definition with_files (fs : list (node * content)) (w : World) : World :=
  {| files := fs; cwd := cwd w; ffmpeg_on_path := ffmpeg_on_path w; stdout := stdout w |}.

(** An argument of a command line: a string, or [str(x)] of a float. *)
Inductive arg : Type :=
  | Str (s : string)
  | StrOfFloat (x : float).

(** The media engine: a command line run in a world gives an exit status
    and a world. *)
Definition Engine : Type := list arg -> World -> Z * World.

(** Computations: a world in, an outcome and a world out. *)
Definition M (A : Type) : Type := World -> result A * World.

#[global] Instance M_ret : MRet M := fun A a w => (Ok a, w).
#[global] Instance M_bind : MBind M :=
  fun A B f m w =>
    match m w with
    | (Ok a, w') => f a w'
    | (Raise e, w') => (Raise e, w')
    end.

Definition raise {A} (e : exn) : M A := fun w => (Raise e, w).

(** A pure computation that may raise, run inside [M]. *)
Definition lift {A} (r : result A) : M A := fun w => (r, w).

(** [try: body  except Exception as e: handler(e)] *)
Definition try_except {A} (body : M A) (handler : exn -> M A) : M A :=
  fun w =>
    match body w with
    | (Ok a, w') => (Ok a, w')
    | (Raise e, w') => handler e w'
    end.

(** [for x in l: body(x)] *)
Fixpoint for_each {A} (l : list A) (body : A -> M unit) : M unit :=
  match l with
  | [] => mret tt
  | x :: l' => body x ;; for_each l' body
  end.

(** [enumerate(l)] *)
Definition enumerate {A} (l : list A) : list (nat * A) :=
  zip (seq 0 (length l)) l.

Module Os.

(** [os.path.join(a, b)] *)
Definition path_join (a b : string) : string :=
  if PyStr.startswith "/" b then b
  else if String.eqb a "" || PyStr.endswith "/" a then a ++ b
  else a ++ "/" ++ b.

(** [os.path.basename(p)] *)
Definition basename (p : string) : string :=
  List.last (PyStr.split "/" p) "".

(** [os.path.splitext(p)[0]] of a path without directory part: the text
    before the last dot, when something other than dots precedes it. *)
Definition splitext_root (p : string) : string :=
  let fields := PyStr.split "." p in
  let root := PyStr.join "." (removelast fields) in
  if forallb (String.eqb "") (removelast fields) then p else root.

(** What the node [k] holds, when it is there. *)
Fixpoint content_at (k : node) (fs : list (node * content)) : option content :=
  match fs with
  | [] => None
  | (q, c) :: fs' => if bool_decide (q = k) then Some c else content_at k fs'
  end.

Definition node_at (k : node) (fs : list (node * content)) : option content :=
  match k with
  | [] => Some Directory
  | _ => content_at k fs
  end.

(** The name of the node [q] when it is an entry of the directory [k]. *)
Fixpoint entry_name (k q : node) : option string :=
  match k, q with
  | [], [name] => Some name
  | a :: k', b :: q' => if String.eqb a b then entry_name k' q' else None
  | _, _ => None
  end.

Definition entries (k : node) (fs : list (node * content)) : list string :=
  omap (fun e : node * content => entry_name k e.1) fs.

(** One name of a path, followed from the directory [k]. *)
Definition step (k : node) (name : string) : node :=
  if String.eqb name "" || String.eqb name "." then k
  else if String.eqb name ".." then removelast k
  else (k ++ [name])%list.

(** The names of the path [p] followed from the node [k]: a name is looked
    up in a directory only. *)
Fixpoint walk (p : string) (fs : list (node * content)) (k : node) (names : list string)
  : result node :=
  match names with
  | [] => Ok k
  | name :: names' =>
      match node_at k fs with
      | Some Directory => walk p fs (step k name) names'
      | Some _ => Raise (NotADirectoryError p)
      | None => Raise (FileNotFoundError p)
      end
  end.

(** What every call refuses before it follows a path, and the directory
    the path is followed from. *)
Definition origin (p : string) (w : World) : result node :=
  if String.eqb p "" then Raise (FileNotFoundError p)
  else if has_char "000" p then Raise (ValueError "embedded null byte")
  else Ok (if PyStr.startswith "/" p then [] else cwd w).

(** The node a path leads to, which need not be there. *)
Definition resolve (p : string) (w : World) : result node :=
  k ← origin p w;
  walk p (files w) k (PyStr.split "/" p).

(** What the path [p] leads to. *)
Definition stat (p : string) (w : World) : result content :=
  k ← resolve p w;
  match node_at k (files w) with
  | Some c => Ok c
  | None => Raise (FileNotFoundError p)
  end.

Definition present (p : string) (w : World) : bool :=
  match stat p w with
  | Ok _ => true
  | Raise _ => false
  end.


(** [os.path.exists(p)] *)
Definition path_exists (p : string) : M bool :=
  fun w => (Ok (present p w), w).

(** [os.listdir(p)] *)
Definition listdir (p : string) : M (list string) :=
  fun w =>
    match resolve p w with
    | Ok k =>
        match node_at k (files w) with
        | Some Directory => (Ok (entries k (files w)), w)
        | Some _ => (Raise (NotADirectoryError p), w)
        | None => (Raise (FileNotFoundError p), w)
        end
    | Raise e => (Raise e, w)
    end.

Fixpoint put (k : node) (c : content) (fs : list (node * content))
  : list (node * content) :=
  match fs with
  | [] => [(k, c)]
  | (q, d) :: fs' => if bool_decide (q = k) then (q, c) :: fs' else (q, d) :: put k c fs'
  end.

(** The names of a path without the empty names that end it. *)
Fixpoint without_trailing_empty (names : list string) : list string :=
  match names with
  | [] => []
  | name :: names' =>
      match without_trailing_empty names' with
      | [] => if String.eqb name "" then [] else [name]
      | rest => name :: rest
      end
  end.

(** [with open(p, 'w') as f: ...] leaving [c] in the file.  The file is
    made in, or replaced in, a directory that is there; a path that ends
    in a slash or in [.] or [..] names a directory, not a file. *)
Definition write_file (p : string) (c : content) : M unit :=
  fun w =>
    let names := without_trailing_empty (PyStr.split "/" p) in
    let name := List.last names "" in
    match (k ← origin p w; walk p (files w) k (removelast names)) with
    | Ok parent =>
        match node_at parent (files w) with
        | Some Directory =>
            if PyStr.endswith "/" p || String.eqb name "" || String.eqb name "."
               || String.eqb name ".."
            then (Raise (IsADirectoryError p), w)
            else
              match node_at (parent ++ [name])%list (files w) with
              | Some Directory => (Raise (IsADirectoryError p), w)
              | _ => (Ok tt, with_files (put (parent ++ [name])%list c (files w)) w)
              end
        | Some _ => (Raise (NotADirectoryError p), w)
        | None => (Raise (FileNotFoundError p), w)
        end
    | Raise e => (Raise e, w)
    end.

(** The directories of the path [p] made one after the other from the
    node [k], those that are there being kept; what was made before an
    error stays. *)
Fixpoint make (p : string) (fs : list (node * content)) (k : node) (names : list string)
  : result unit * list (node * content) :=
  match names with
  | [] =>
      match node_at k fs with
      | Some Directory => (Ok tt, fs)
      | Some _ => (Raise (FileExistsError p), fs)
      | None => (Raise (FileNotFoundError p), fs)
      end
  | name :: names' =>
      match node_at k fs with
      | Some Directory =>
          let k' := step k name in
          match node_at k' fs with
          | Some _ => make p fs k' names'
          | None => make p (fs ++ [(k', Directory)])%list k' names'
          end
      | Some _ => (Raise (NotADirectoryError p), fs)
      | None => (Raise (FileNotFoundError p), fs)
      end
  end.

(** [os.makedirs(p, exist_ok=True)] *)
Definition makedirs (p : string) : M unit :=
  fun w =>
    match origin p w with
    | Ok k =>
        let '(r, fs) := make p (files w) k (without_trailing_empty (PyStr.split "/" p)) in
        (r, with_files fs w)
    | Raise e => (Raise e, w)
    end.

(** [os.remove(p)] *)
Definition remove (p : string) : M unit :=
  fun w =>
    match resolve p w with
    | Ok k =>
        match node_at k (files w) with
        | Some Directory => (Raise (IsADirectoryError p), w)
        | Some _ => (Ok tt, with_files (filter (fun e => e.1 ≠ k) (files w)) w)
        | None => (Raise (FileNotFoundError p), w)
        end
    | Raise e => (Raise e, w)
    end.

(** [with open(p) as f: json.load(f)]: a timeline document gives its
    segment list, any other file is not JSON ([JSONDecodeError], a
    [ValueError]). *)
Definition load_json (p : string) : M (list Audio.Segment) :=
  fun w =>
    match stat p w with
    | Ok (Timeline segments) => (Ok segments, w)
    | Ok Directory => (Raise (IsADirectoryError p), w)
    | Ok _ => (Raise (ValueError p), w)
    | Raise e => (Raise e, w)
    end.

(** [print(...)] *)
Definition print (line : printed) : M unit :=
  fun w => (Ok tt, {| files := files w; cwd := cwd w; ffmpeg_on_path := ffmpeg_on_path w;
                      stdout := stdout w ++ [line] |}).

(** [which("ffmpeg") is None] *)
Definition ffmpeg_missing : M bool :=
  fun w => (Ok (negb (ffmpeg_on_path w)), w).

(** [subprocess.run(cmd, check=True)] for a command line of [ffmpeg]: the
    program is started only if it is found. *)
Definition run (engine : Engine) (cmd : list arg) : M unit :=
  fun w =>
    if ffmpeg_on_path w
    then
      let '(returncode, w') := engine cmd w in
      if (returncode =? 0)%Z then (Ok tt, w')
      else (Raise (CalledProcessError returncode), w')
    else (Raise (FileNotFoundError "ffmpeg"), w).

End Os.

(** A path of one name: a name other than [.] and [..], without a slash
    or a null character. *)
Definition plain_name (p : string) : bool :=
  negb (String.eqb p "") && negb (String.eqb p ".") && negb (String.eqb p "..")
  && negb (has_char "/" p) && negb (has_char "000" p).

(** [str(n)] of a non-negative integer. *)
Definition str_of_nat (n : nat) : string := NilEmpty.string_of_uint (Nat.to_uint n).

(** [sorted(l)] under a comparison [le]: the stable sort, by insertion. *)
Fixpoint insert_sorted {A} (le : A -> A -> bool) (x : A) (l : list A) : list A :=
  match l with
  | [] => [x]
  | y :: l' => if le x y then x :: l else y :: insert_sorted le x l'
  end.

Definition sorted {A} (le : A -> A -> bool) (l : list A) : list A :=
  foldr (insert_sorted le) [] l.

(** Comparison of decorated elements by their key alone. *)
Definition by_key {A} (a b : Z * A) : bool := (a.1 <=? b.1)%Z.

(** [sorted(l, key=key)]: the keys are computed first, an exception of
    [key] ends the call; elements are compared by key only. *)
Definition sorted_by_key {A} (key : A -> result Z) (l : list A) : result (list A) :=
  keys ← mapM key l;
  Ok ((sorted by_key (zip keys l)).*2).

(** The key of an element whose key can be computed, and the element
    decorated with it. *)
Definition key_of {A} (key : A -> result Z) (x : A) : Z :=
  match key x with
  | Ok n => n
  | Raise _ => 0%Z
  end.

Definition decorate {A} (key : A -> result Z) (x : A) : Z * A := (key_of key x, x).

(** ** draft/segments.py *)

Module Segments.

Import Os.

Definition CLIPS_DIR := "clips".
Definition SEGMENTS_DIR := "segments".
Definition TRANSCRIPTIONS_DIR := "temp_transcriptions".

Definition validate_environment : M unit :=
  clips_exist ← path_exists CLIPS_DIR;
  if negb clips_exist then raise (FileNotFoundError CLIPS_DIR) else
  transcriptions_exist ← path_exists TRANSCRIPTIONS_DIR;
  if negb transcriptions_exist then raise (FileNotFoundError TRANSCRIPTIONS_DIR) else
  makedirs SEGMENTS_DIR.

Definition get_clips_for_keyword (keyword : string) : M (list string) :=
  let keyword_dir := path_join CLIPS_DIR keyword in
  dir_exists ← path_exists keyword_dir;
  if negb dir_exists then raise (FileNotFoundError keyword) else
  names ← listdir keyword_dir;
  let clips :=
    map (path_join keyword_dir)
        (filter (fun f => PyStr.endswith ".mp4" (PyStr.lower f) = true) names) in
  match clips with
  | [] => raise (ValueError keyword_dir)
  | _ => mret clips
  end.

Definition list_file := "temp_clips.txt".
Definition temp_output := "temp_concat.mp4".

Definition concat_cmd : list arg :=
  [Str "ffmpeg"; Str "-y"; Str "-f"; Str "concat"; Str "-safe"; Str "0";
   Str "-i"; Str list_file; Str "-c"; Str "copy"; Str temp_output].

Definition trim_cmd (duration : float) (output_path : string) : list arg :=
  [Str "ffmpeg"; Str "-y"; Str "-i"; Str temp_output;
   Str "-t"; StrOfFloat duration; Str "-c"; Str "copy"; Str output_path].

(** The concat list [create_segment] writes first. *)
Definition write_clip_list (clips : list string) : M unit :=
  write_file list_file (Lines (map (fun clip => "file '" ++ clip ++ "'") clips)).

Definition create_segment (engine : Engine) (clips : list string) (duration : float)
    (output_path : string) : M unit :=
  write_clip_list clips ;;
  run engine concat_cmd ;;
  run engine (trim_cmd duration output_path) ;;
  remove list_file ;;
  remove temp_output.

(** The body of the loop of [process_segments]. *)
Definition process_segment (engine : Engine) (base_name : string)
    (item : nat * Audio.Segment) : M unit :=
  let '(i, segment) := item in
  let keyword := Audio.Folder segment in
  let duration := (Audio.endtime segment - Audio.starttime segment)%float in
  found ← try_except
             (clips ← get_clips_for_keyword keyword; mret (Some clips))
             (fun e => print (SkippingSegment i base_name e) ;; mret None);
  match found with
  | None => mret tt
  | Some clips =>
      let output_file :=
        path_join SEGMENTS_DIR
          (base_name ++ "_segment_" ++ str_of_nat i ++ "_" ++ keyword ++ ".mp4") in
      print (CreatingSegment i base_name duration keyword) ;;
      create_segment engine clips duration output_file
  end.

Definition process_segments (engine : Engine) (json_path : string) : M unit :=
  let base_name :=
    PyStr.replace "_segments" "" (splitext_root (basename json_path)) in
  segments_data ← load_json json_path;
  for_each (enumerate segments_data) (process_segment engine base_name).

(** The body of the loop of [main]. *)
Definition process_json (engine : Engine) (json_file : string) : M unit :=
  print (ProcessingJson json_file) ;;
  process_segments engine json_file.

(** The part of [main] before its loop. *)
Definition prepare : M (list string) :=
  validate_environment ;;
  names ← listdir TRANSCRIPTIONS_DIR;
  mret (map (path_join TRANSCRIPTIONS_DIR)
            (filter (fun f => PyStr.endswith ".json" f = true) names)).

Definition main (engine : Engine) : M unit :=
  try_except
    (validate_environment ;;
     names ← listdir TRANSCRIPTIONS_DIR;
     let json_files :=
       map (path_join TRANSCRIPTIONS_DIR)
           (filter (fun f => PyStr.endswith ".json" f = true) names) in
     match json_files with
     | [] => print NoJsonFilesFound
     | _ =>
         for_each json_files (process_json engine) ;;
         print AllSegmentsCreated
     end)
    (fun e => print (ErrorLine e)).

End Segments.

(** ** ahmi.py *)

Module Ahmi.

(** A timeline entry as [create_title] receives it; only [Folder] is read. *)
Record Entry := { Folder : string; starttime : Z; endtime : Z }.

(** [AnimeVideoNamer().associations] *)
Definition associations : gmap string string :=
  list_to_map
    [ ("luffy", "onepiece"); ("naruto", "narutoshippuden"); ("saitama", "opm");
      ("goku", "dbz"); ("ichigo", "bleach"); ("gojo", "jjk"); ("madara", "naruto");
      ("sukuna", "jjk"); ("kakashi", "naruto"); ("vegeta", "dragonball") ].

(** One turn of the loop of [create_title] on [seen_folders] and [hashtags]. *)
Definition visit (state : list string * gset string) (entry : Entry)
  : list string * gset string :=
  let '(seen_folders, hashtags) := state in
  let folder := PyStr.lower (Folder entry) in
  if bool_decide (folder ∈ seen_folders) then state
  else
    let seen_folders := (seen_folders ++ [folder])%list in
    match associations !! folder with
    | Some (String _ _ as assoc_word) =>
        (seen_folders, hashtags ∪ {[ "#" ++ assoc_word ++ " #" ++ folder ]})
    | _ => (seen_folders, hashtags)
    end.

Definition create_title (entries : list Entry) (for_filename : bool) : string :=
  let '(seen_folders, hashtags) := foldl visit ([], {[ "#animebattle" ]}) entries in
  let title_main := PyStr.join " vs " seen_folders in
  let hashtags_str := PyStr.join " " (sorted String.leb (elements hashtags)) in
  let full_title := title_main ++ " " ++ hashtags_str in
  if for_filename then PyStr.replace "_" "#" full_title else full_title.

End Ahmi.

(** ** final.py *)

Module Final.

Import Os.

Definition SEGMENTS_DIR := "segments".
Definition AUDIO_DIR := "audio".
Definition MUSIC_PATH := "music/music.mp3".
Definition OUTPUT_DIR := "final_videos".

Definition validate_environment : M unit :=
  segments_exist ← path_exists SEGMENTS_DIR;
  if negb segments_exist then raise (FileNotFoundError SEGMENTS_DIR) else
  audio_exists ← path_exists AUDIO_DIR;
  if negb audio_exists then raise (FileNotFoundError AUDIO_DIR) else
  music_exists ← path_exists MUSIC_PATH;
  if negb music_exists then raise (FileNotFoundError MUSIC_PATH) else
  makedirs OUTPUT_DIR.

Definition get_audio_file (segment_base : string) : M string :=
  audio_base ← lift (index (PyStr.split "_segment_" segment_base) 0);
  names ← listdir AUDIO_DIR;
  match filter (fun f => PyStr.startswith audio_base f && PyStr.endswith ".mp4" f = true)
               names with
  | f :: _ => mret (path_join AUDIO_DIR f)
  | [] => raise (FileNotFoundError segment_base)
  end.

Definition get_segment_entries (segment_group : list string) : list Ahmi.Entry :=
  flat_map (fun seg =>
    match PyStr.split "_" seg with
    | _ :: _ :: _ :: keyword :: _ =>
        [ {| Ahmi.Folder := PyStr.replace ".mp4" "" keyword;
             Ahmi.starttime := 0; Ahmi.endtime := 0 |} ]
    | _ => []
    end) segment_group.

(** The characters the safe name keeps. *)
Definition safe_char (c : ascii) : ascii :=
  if PyStr.isalnum c
     || Ascii.eqb c " " || Ascii.eqb c "-" || Ascii.eqb c "_" || Ascii.eqb c "#"
  then c else "_"%char.

(** The sort key of a segment file name: [int(x.split('_')[2])]. *)
Definition segment_index (x : string) : result Z :=
  field ← index (PyStr.split "_" x) 2;
  match PyStr.int field with
  | Some n => Ok n
  | None => Raise (ValueError field)
  end.

Definition concat_list := "temp_concat.txt".
Definition video_no_audio := "temp_video_no_audio.mp4".
Definition original_audio := "temp_original_audio.wav".
Definition bg_music := "temp_bg_music.wav".
Definition mixed_audio := "temp_mixed_audio.wav".

Definition temporaries : list string :=
  [concat_list; video_no_audio; original_audio; bg_music; mixed_audio].

Definition concat_cmd : list arg :=
  [Str "ffmpeg"; Str "-y"; Str "-f"; Str "concat"; Str "-safe"; Str "0";
   Str "-i"; Str concat_list; Str "-c:v"; Str "libx264"; Str "-r"; Str "30";
   Str "-preset"; Str "fast"; Str "-crf"; Str "23"; Str "-an"; Str video_no_audio].

Definition audio_cmd (audio_file : string) : list arg :=
  [Str "ffmpeg"; Str "-y"; Str "-i"; Str audio_file; Str "-vn";
   Str "-acodec"; Str "pcm_s16le"; Str original_audio].

Definition music_cmd : list arg :=
  [Str "ffmpeg"; Str "-y"; Str "-i"; Str MUSIC_PATH; Str "-vn";
   Str "-filter:a"; Str "volume=0.1"; Str "-acodec"; Str "pcm_s16le"; Str bg_music].

Definition mix_cmd : list arg :=
  [Str "ffmpeg"; Str "-y"; Str "-i"; Str original_audio; Str "-i"; Str bg_music;
   Str "-filter_complex"; Str "[0:a][1:a]amerge=inputs=2[aout]";
   Str "-map"; Str "[aout]"; Str "-ac"; Str "2"; Str "-c:a"; Str "pcm_s16le";
   Str mixed_audio].

Definition final_cmd (title output_file : string) : list arg :=
  [Str "ffmpeg"; Str "-y"; Str "-i"; Str video_no_audio; Str "-i"; Str mixed_audio;
   Str "-c:v"; Str "copy"; Str "-c:a"; Str "aac"; Str "-b:a"; Str "192k";
   Str "-shortest"; Str "-r"; Str "30"; Str "-metadata"; Str ("title=" ++ title);
   Str output_file].

(** The five engine invocations of [process_video_group], in order. *)
Definition compose (engine : Engine) (audio_file title output_file : string) : M unit :=
  run engine concat_cmd ;;
  run engine (audio_cmd audio_file) ;;
  run engine music_cmd ;;
  run engine mix_cmd ;;
  run engine (final_cmd title output_file).

(** The cleanup loop that ends [process_video_group]. *)
Definition cleanup : M unit :=
  for_each temporaries (fun f =>
    present ← path_exists f;
    if (present : bool) then remove f else mret tt).

Definition process_video_group (engine : Engine) (segment_group : list string) : M unit :=
  first ← lift (index segment_group 0);
  base_name ← lift (index (PyStr.split "_segment_" first) 0);
  let entries := get_segment_entries segment_group in
  let title := Ahmi.create_title entries true in
  let safe_title := PyStr.map_chars safe_char title in
  let output_file := path_join OUTPUT_DIR (safe_title ++ ".mp4") in
  segments ← lift (sorted_by_key segment_index segment_group);
  let segment_files := map (path_join SEGMENTS_DIR) segments in
  audio_file ← get_audio_file base_name;
  write_file concat_list
    (Lines (map (fun seg => "file '" ++ seg ++ "'") segment_files)) ;;
  compose engine audio_file title output_file ;;
  cleanup ;;
  print (CreatedFinalVideo output_file) ;;
  print (TitleLine title).

(** [groups[base].append(f)] on a dictionary kept in insertion order. *)
Fixpoint add_to_group (base f : string) (groups : list (string * list string))
  : list (string * list string) :=
  match groups with
  | [] => [(base, [f])]
  | (b, members) :: groups' =>
      if String.eqb b base then (b, (members ++ [f])%list) :: groups'
      else (b, members) :: add_to_group base f groups'
  end.

Definition group_names (names : list string) : result (list (string * list string)) :=
  foldl (fun acc f =>
           groups ← acc;
           if PyStr.endswith ".mp4" f
           then base ← index (PyStr.split "_segment_" f) 0;
                Ok (add_to_group base f groups)
           else Ok groups)
        (Ok []) names.

Definition group_segments : M (list (string * list string)) :=
  names ← listdir SEGMENTS_DIR;
  lift (group_names names).

(** The part of [main] before its loop. *)
Definition prepare : M (list (string * list string)) :=
  validate_environment ;;
  missing ← ffmpeg_missing;
  if (missing : bool) then raise (Exception "ffmpeg is not installed") else
  group_segments.

(** The body of the loop of [main]. *)
Definition process_group (engine : Engine) (group : string * list string) : M unit :=
  let '(base_name, segments) := group in
  print (ProcessingGroup base_name (length segments)) ;;
  process_video_group engine segments.

Definition main (engine : Engine) : M unit :=
  try_except
    (validate_environment ;;
     missing ← ffmpeg_missing;
     if (missing : bool) then raise (Exception "ffmpeg is not installed") else
     segment_groups ← group_segments;
     match segment_groups with
     | [] => print NoSegmentsFound
     | _ =>
         for_each segment_groups (process_group engine) ;;
         print AllVideosProcessed
     end)
    (fun e => print (ErrorLine e)).

End Final.

(** ** A stand-in engine and sample worlds

    Used only to run the programs on concrete inputs.  The stand-in writes
    a media file at the output path (the last argument) whose duration is
    that of its input (the sum over a concat list, the first [-i]
    otherwise), cut down to the [-t] limit if any; it exits with status 0
    when the output could be written and with status 1 otherwise. *)

Module Fixture.

Fixpoint inputs_of (cmd : list arg) : list string :=
  match cmd with
  | Str flag :: ((Str p :: _) as rest) =>
      if String.eqb flag "-i" then p :: inputs_of rest else inputs_of rest
  | _ :: rest => inputs_of rest
  | [] => []
  end.

Fixpoint limit_of (cmd : list arg) : option float :=
  match cmd with
  | Str flag :: ((StrOfFloat d :: _) as rest) =>
      if String.eqb flag "-t" then Some d else limit_of rest
  | _ :: rest => limit_of rest
  | [] => None
  end.

Fixpoint has_arg (s : string) (cmd : list arg) : bool :=
  match cmd with
  | Str a :: rest => String.eqb a s || has_arg s rest
  | _ :: rest => has_arg s rest
  | [] => false
  end.

Definition output_of (cmd : list arg) : option string :=
  match last cmd with
  | Some (Str p) => Some p
  | _ => None
  end.

Definition seconds_of (p : string) (w : World) : float :=
  match Os.stat p w with
  | Ok (Media d) => d
  | _ => 0%float
  end.

(** The path named by a line [file 'path'] of a concat list. *)
Definition listed_path (line : string) : string :=
  nth 1 (PyStr.split "'" line) "".

Definition total_seconds (ps : list string) (w : World) : float :=
  foldl (fun acc p => (acc + seconds_of p w)%float) 0%float ps.

Definition input_seconds (cmd : list arg) (w : World) : float :=
  match inputs_of cmd with
  | [] => 0%float
  | p :: _ =>
      if has_arg "concat" cmd
      then match Os.stat p w with
           | Ok (Lines lines) => total_seconds (map listed_path lines) w
           | _ => 0%float
           end
      else seconds_of p w
  end.

Definition ffmpeg_model : Engine :=
  fun cmd w =>
    match output_of cmd with
    | None => (0%Z, w)
    | Some out =>
        let d := input_seconds cmd w in
        let d := match limit_of cmd with
                 | Some t => if (t <? d)%float then t else d
                 | None => d
                 end in
        match Os.write_file out (Media d) w with
        | (Ok _, w') => (0%Z, w')
        | (Raise _, w') => (1%Z, w')
        end
    end.

(** [engine], except that a command line with the argument [bad] exits
    with status 1 and changes nothing. *)
Definition failing_on (bad : string) (engine : Engine) : Engine :=
  fun cmd w => if has_arg bad cmd then (1%Z, w) else engine cmd w.

Definition seg (k : string) (a b : float) : Audio.Segment :=
  {| Audio.Folder := k; Audio.starttime := a; Audio.endtime := b |}.

(** A title entry for a keyword. *)
Definition entry (keyword : string) : Ahmi.Entry :=
  {| Ahmi.Folder := keyword; Ahmi.starttime := 0; Ahmi.endtime := 0 |}.

(** Two keyword occurrences of one recording. *)
Definition sample_events : list Audio.RawTimestamp :=
  [ {| Audio.raw_Folder := "luffy"; Audio.raw_starttime := 2 |};
    {| Audio.raw_Folder := "naruto"; Audio.raw_starttime := 10 |} ].

(** A world whose working directory is [home] and holds the nodes [l],
    named by their paths from it. *)
Definition home : node := ["home"; "ahmi"].

Definition tree (l : list (string * content)) : list (node * content) :=
  map (fun e : string * content => ((home ++ PyStr.split "/" e.1)%list, e.2)) l.

Definition world_of (l : list (string * content)) : World :=
  {| files := (["home"], Directory) :: (home, Directory) :: tree l;
     cwd := home;
     ffmpeg_on_path := true;
     stdout := [] |}.

(** Clip pools for two keywords and the timeline of one recording. *)
Definition assembly_world : World :=
  world_of
    [ ("clips", Directory);
      ("clips/luffy", Directory); ("clips/luffy/l1.mp4", Media 4);
      ("clips/goku", Directory); ("clips/goku/g1.mp4", Media 6);
      ("temp_transcriptions", Directory);
      ("temp_transcriptions/a_segments.json",
       Timeline [seg "luffy" 0 3; seg "goku" 3 8]) ].

(** The same pools and the timelines of two recordings, the first with a
    keyword that has no pool. *)
Definition gap_world : World :=
  world_of
    [ ("clips", Directory);
      ("clips/luffy", Directory); ("clips/luffy/l1.mp4", Media 4);
      ("clips/goku", Directory); ("clips/goku/g1.mp4", Media 6);
      ("temp_transcriptions", Directory);
      ("temp_transcriptions/a_segments.json",
       Timeline [seg "luffy" 0 3; seg "naruto" 3 5; seg "goku" 5 8]);
      ("temp_transcriptions/b_segments.json",
       Timeline [seg "goku" 0 2]) ].

(** Clips in the clip directory itself and in the directory of a keyword,
    among other files. *)
Definition pool_world : World :=
  world_of
    [ ("clips", Directory); ("clips/top.mp4", Media 2); ("clips/readme", Lines []);
      ("clips/luffy", Directory); ("clips/luffy/l1.MP4", Media 4);
      ("clips/luffy/notes.txt", Lines []);
      ("temp_transcriptions", Directory);
      ("temp_transcriptions/a_segments.json",
       Timeline [seg "naruto" 0 3; seg "readme" 3 8]) ].

(** Segment units of two recordings, their narration and the music. *)
Definition composition_world : World :=
  world_of
    [ ("segments", Directory);
      ("segments/a_segment_1_naruto.mp4", Media 5);
      ("segments/a_segment_0_luffy.mp4", Media 10);
      ("segments/b_segment_0_goku.mp4", Media 20);
      ("audio", Directory);
      ("audio/a.mp4", Media 15); ("audio/b.mp4", Media 20);
      ("music", Directory); ("music/music.mp3", Media 60) ].

End Fixture.

From Stdlib Require DecimalNat.

(** ** audio.py: the pipeline around the derivation *)

Module AudioMain.

Import Os.

Definition MAX_AUDIO_FILES : nat := 5.
Definition AUDIO_DIR := "audio".
Definition OUTPUT_DIR := "temp_transcriptions".

(** The speech recogniser, per audio path: the words of each segment as
    the model [base] returns them with [word_timestamps=True], and the
    [end] of each segment as the model [tiny] returns it. *)
Record Recogniser := {
  word_segments : string -> list (list Audio.Word);
  segment_ends : string -> list float
}.

(** The lines [audio.py] prints, before formatting. *)
Inductive line : Type :=
  | Transcribing (audio_path : string)
  | FoundAudioFiles (n : nat)
  | SavedSegments (output_file : string)
  | Completed
  | ErrorProcessingAudio (e : exn).

(** A run of [audio.py]: the world and what the script has printed. *)
Record Run : Type := { world : World; printed_lines : list line }.

Definition MA (A : Type) : Type := Run -> result A * Run.

#[global] Instance MA_ret : MRet MA := fun A a r => (Ok a, r).
#[global] Instance MA_bind : MBind MA :=
  fun A B f m r =>
    match m r with
    | (Ok a, r') => f a r'
    | (Raise e, r') => (Raise e, r')
    end.

(** A computation on the world, inside a run. *)
Definition in_world {A} (m : M A) : MA A :=
  fun r =>
    let '(a, w') := m (world r) in
    (a, {| world := w'; printed_lines := printed_lines r |}).

(** A pure computation that may raise, inside a run. *)
Definition pure {A} (a : result A) : MA A := fun r => (a, r).

(** [print(...)] *)
Definition say (l : line) : MA unit :=
  fun r => (Ok tt, {| world := world r; printed_lines := printed_lines r ++ [l] |}).

(** [try: body  except Exception as e: handler(e)] *)
Definition try_except {A} (body : MA A) (handler : exn -> MA A) : MA A :=
  fun r =>
    match body r with
    | (Ok a, r') => (Ok a, r')
    | (Raise e, r') => handler e r'
    end.

(** [for x in l: body(x)] *)
Fixpoint for_each {A} (l : list A) (body : A -> MA unit) : MA unit :=
  match l with
  | [] => mret tt
  | x :: l' => body x ;; for_each l' body
  end.

(** [get_audio_duration]: [result['segments'][-1]['end']] *)
Definition get_audio_duration (recogniser : Recogniser) (audio_path : string)
  : result float :=
  match last (segment_ends recogniser audio_path) with
  | Some e => Ok e
  | None => Raise IndexError
  end.

Definition validate_audio_files : M (list string) :=
  dir_exists ← path_exists AUDIO_DIR;
  if negb dir_exists then raise (FileNotFoundError AUDIO_DIR) else
  names ← listdir AUDIO_DIR;
  let audio_files :=
    map (path_join AUDIO_DIR)
        (filter (fun f => PyStr.endswith ".mp4" (PyStr.lower f) = true) names) in
  if bool_decide (MAX_AUDIO_FILES < length audio_files)
  then raise (ValueError "Maximum 5 audio files allowed")
  else
    match audio_files with
    | [] => raise (ValueError "No MP4 audio files found in audio directory")
    | _ => mret audio_files
    end.

Definition save_segments (output_path : string) (segments : list Audio.Segment)
  : M unit :=
  makedirs OUTPUT_DIR ;;
  write_file output_path (Timeline segments).

(** The name of the timeline document of an audio file. *)
Definition output_file_of (audio_file : string) : string :=
  let base_name := splitext_root (basename audio_file) in
  path_join OUTPUT_DIR (base_name ++ "_segments.json").

(** The body of the loop of [main]; the line [Transcribing] is the one
    [process_audio_file] prints when it starts. *)
Definition process_file (recogniser : Recogniser) (keywords : list string)
    (audio_file : string) : MA unit :=
  duration ← pure (get_audio_duration recogniser audio_file);
  say (Transcribing audio_file) ;;
  segments ← pure (Audio.process_audio_file
                     (word_segments recogniser audio_file) keywords duration);
  let output_file := output_file_of audio_file in
  in_world (save_segments output_file segments) ;;
  say (SavedSegments output_file).

Definition main (recogniser : Recogniser) (keywords : list string) : MA bool :=
  try_except
    (audio_files ← in_world validate_audio_files;
     say (FoundAudioFiles (length audio_files)) ;;
     for_each audio_files (process_file recogniser keywords) ;;
     say Completed ;;
     mret true)
    (fun e => say (ErrorProcessingAudio e) ;; mret false).

End AudioMain.

(** ** draft/segments.py as a script *)

Module SegmentsScript.

(** The [__main__] block: the engine is looked up before [main] runs, and
    outside its handler. *)
Definition script (engine : Engine) : M unit :=
  missing ← Os.ffmpeg_missing;
  if (missing : bool)
  then raise (Exception "ffmpeg is not installed. Please install ffmpeg first.")
  else Segments.main engine.

(** The file name [process_segments] gives the unit of segment [i]. *)
Definition unit_name (base_name : string) (i : nat) (keyword : string) : string :=
  base_name ++ "_segment_" ++ str_of_nat i ++ "_" ++ keyword ++ ".mp4".

(** The unit names of a recording whose segments, of keywords [keywords]
    in timeline order, are all assembled. *)
Definition unit_names (base_name : string) (keywords : list string) : list string :=
  map (fun item : nat * string => unit_name base_name item.1 item.2)
      (enumerate keywords).

End SegmentsScript.

(** The text of [f] before its first [_segment_], the key under which
    [group_segments] files it; and the test it applies to a listed name. *)
Definition base_of (f : string) : string :=
  match PyStr.split "_segment_" f with
  | base :: _ => base
  | [] => ""
  end.

Definition unit_of (base f : string) : Prop :=
  PyStr.endswith ".mp4" f = true /\ base_of f = base.

#[global] Instance unit_of_dec base f : Decision (unit_of base f).
Proof. unfold unit_of. apply _. Defined.

(** The members filed under the key [base], none when the key is absent. *)
Fixpoint members_of (base : string) (groups : list (string * list string)) : list string :=
  match groups with
  | [] => []
  | (b, members) :: groups' =>
      if String.eqb b base then members else members_of base groups'
  end.

(** [groups] is the grouping of the names [seen]: every key once, and
    under each key the units of that key, in the order of [seen]. *)
Definition grouped (seen : list string) (groups : list (string * list string)) : Prop :=
  NoDup groups.*1
  /\ (forall b, members_of b groups = filter (unit_of b) seen)
  /\ (forall b, b ∈ groups.*1 <-> filter (unit_of b) seen <> []).

(** The characters [process_video_group] lets into a file name. *)
Definition is_safe (c : ascii) : bool :=
  PyStr.isalnum c
  || Ascii.eqb c " " || Ascii.eqb c "-" || Ascii.eqb c "_" || Ascii.eqb c "#".

(** The title and the output file [process_video_group] computes for a group. *)
Definition title_of_group (segment_group : list string) : string :=
  Ahmi.create_title (Final.get_segment_entries segment_group) true.

Definition output_file_of_group (segment_group : list string) : string :=
  Os.path_join Final.OUTPUT_DIR
    (PyStr.map_chars Final.safe_char (title_of_group segment_group) ++ ".mp4").

(** The base name [process_segments] derives from the path of a timeline
    document. *)
Definition base_name_of (json_path : string) : string :=
  PyStr.replace "_segments" "" (Os.splitext_root (Os.basename json_path)).

(** A recogniser and an audio directory for running [audio.py]: a recording
    with speech and one without. *)
Module Sample.

Definition recogniser : AudioMain.Recogniser :=
  {| AudioMain.word_segments := fun p =>
       if String.eqb p "audio/talk.mp4"
       then [ [ {| Audio.word := " So"; Audio.start := 0.5 |};
                {| Audio.word := " Luffy,"; Audio.start := 2 |} ];
              [ {| Audio.word := " meets"; Audio.start := 9 |};
                {| Audio.word := " Naruto."; Audio.start := 10 |} ] ]
       else [];
     AudioMain.segment_ends := fun p =>
       if String.eqb p "audio/talk.mp4" then [8.5; 15]%float else [] |}.

Definition keywords : list string := ["luffy"; "naruto"; "goku"].

Definition audio_world : World :=
  Fixture.world_of
    [ ("audio", Directory); ("audio/talk.mp4", Media 15);
      ("audio/notes.txt", Lines []); ("audio/silent.MP4", Media 3) ].

Definition start : AudioMain.Run :=
  {| AudioMain.world := audio_world; AudioMain.printed_lines := [] |}.

End Sample.


(** * Properties *)

Local Open Scope list_scope.

(** ** Strings *)

Section StringFacts.

Import PyStr.

Variable p : ascii -> bool.

Lemma ends_in_rstrip (s : string) : ends_in p (rstrip p s) = false.
Proof.
  induction s as [|c s IH]; simpl; [reflexivity|].
  destruct (rstrip p s) as [|d r] eqn:E.
  - destruct (p c) eqn:Hc; simpl; [reflexivity | exact Hc].
  - exact IH.
Qed.

Lemma rstrip_fixed (s : string) : ends_in p s = false -> rstrip p s = s.
Proof.
  induction s as [|c s IH]; simpl; [reflexivity|].
  destruct s as [|d r].
  - intros ->. reflexivity.
  - intros H. rewrite (IH H). reflexivity.
Qed.

Lemma rstrip_length (s : string) : String.length (rstrip p s) <= String.length s.
Proof.
  induction s as [|c s IH]; simpl; [lia|].
  destruct (rstrip p s) as [|d r]; [destruct (p c)|]; simpl in *; lia.
Qed.

Lemma rstrip_shorter (s : string) :
  ends_in p s = true -> String.length (rstrip p s) < String.length s.
Proof.
  induction s as [|c s IH]; simpl; [discriminate|].
  destruct s as [|d r].
  - intros ->. simpl. lia.
  - intros H. specialize (IH H).
    destruct (rstrip p (String d r)) as [|d' r']; [destruct (p c)|]; simpl in *; lia.
Qed.

Lemma starts_in_lstrip (s : string) : starts_in p (lstrip p s) = false.
Proof.
  induction s as [|c s IH]; simpl; [reflexivity|].
  destruct (p c) eqn:Hc; [exact IH | exact Hc].
Qed.

Lemma lstrip_fixed (s : string) : starts_in p s = false -> lstrip p s = s.
Proof. destruct s as [|c s]; simpl; [reflexivity|]. intros ->. reflexivity. Qed.

Lemma lstrip_length (s : string) : String.length (lstrip p s) <= String.length s.
Proof.
  induction s as [|c s IH]; simpl; [lia|].
  destruct (p c); simpl; lia.
Qed.

Lemma starts_in_rstrip (q : ascii -> bool) (s : string) :
  starts_in q s = false -> starts_in q (rstrip p s) = false.
Proof.
  destruct s as [|c s]; simpl; [reflexivity|]. intros Hq.
  destruct (rstrip p s); [destruct (p c)|]; simpl; auto.
Qed.

Variable f : ascii -> ascii.
Hypothesis p_f : forall c, p (f c) = p c.

Lemma starts_in_map_chars (s : string) : starts_in p (map_chars f s) = starts_in p s.
Proof. destruct s; simpl; auto. Qed.

Lemma ends_in_map_chars (s : string) : ends_in p (map_chars f s) = ends_in p s.
Proof.
  induction s as [|c s IH]; simpl; [reflexivity|].
  destruct s as [|d r]; simpl in *; auto.
Qed.

End StringFacts.

Lemma map_chars_length f (s : string) :
  String.length (PyStr.map_chars f s) = String.length s.
Proof. induction s; simpl; congruence. Qed.

Lemma map_chars_idempotent f (s : string) :
  (forall c, f (f c) = f c) ->
  PyStr.map_chars f (PyStr.map_chars f s) = PyStr.map_chars f s.
Proof. intros Hf. induction s; simpl; congruence. Qed.

Ltac by_cases_on_char c :=
  destruct c as [[] [] [] [] [] [] [] []]; vm_compute; reflexivity.

Lemma lower_char_idempotent c : PyStr.lower_char (PyStr.lower_char c) = PyStr.lower_char c.
Proof. by_cases_on_char c. Qed.

Lemma isspace_lower_char c : PyStr.isspace (PyStr.lower_char c) = PyStr.isspace c.
Proof. by_cases_on_char c. Qed.

Lemma is_punctuation_lower_char c :
  PyStr.is_punctuation (PyStr.lower_char c) = PyStr.is_punctuation c.
Proof. by_cases_on_char c. Qed.

(** A normalized word never starts with white space and never ends with
    punctuation. *)
Lemma normalize_word_starts (w : string) :
  PyStr.starts_in PyStr.isspace (Audio.normalize_word w) = false.
Proof.
  unfold Audio.normalize_word, PyStr.lower, PyStr.strip.
  rewrite starts_in_map_chars by apply isspace_lower_char.
  do 2 apply starts_in_rstrip. apply starts_in_lstrip.
Qed.

Lemma normalize_word_ends (w : string) :
  PyStr.ends_in PyStr.is_punctuation (Audio.normalize_word w) = false.
Proof.
  unfold Audio.normalize_word, PyStr.lower.
  rewrite ends_in_map_chars by apply is_punctuation_lower_char.
  apply ends_in_rstrip.
Qed.

Lemma normalize_word_not_longer (w : string) :
  String.length (Audio.normalize_word w) <= String.length (PyStr.strip w).
Proof.
  unfold Audio.normalize_word, PyStr.lower.
  rewrite map_chars_length. apply rstrip_length.
Qed.

Lemma normalize_word_fixed (n : string) :
  PyStr.starts_in PyStr.isspace n = false ->
  PyStr.ends_in PyStr.isspace n = false ->
  PyStr.ends_in PyStr.is_punctuation n = false ->
  PyStr.lower n = n ->
  Audio.normalize_word n = n.
Proof.
  intros Hs He Hp Hl. unfold Audio.normalize_word, PyStr.strip.
  rewrite (lstrip_fixed _ _ Hs), (rstrip_fixed _ _ He), (rstrip_fixed _ _ Hp).
  exact Hl.
Qed.

(** C10 (as amended): normalizing twice gives the same word as normalizing
    once exactly when the normalized word does not end in white space; the
    trailing punctuation is stripped after the white space, so white space
    uncovered by that second step is left for another pass. *)
Theorem normalize_word_idempotent_iff (w : string) :
  Audio.normalize_word (Audio.normalize_word w) = Audio.normalize_word w
  <-> PyStr.ends_in PyStr.isspace (Audio.normalize_word w) = false.
Proof.
  split.
  - intros H. destruct (PyStr.ends_in PyStr.isspace (Audio.normalize_word w)) eqn:E;
      [exfalso | reflexivity].
    pose proof (normalize_word_not_longer (Audio.normalize_word w)) as Hlen.
    unfold PyStr.strip in Hlen.
    rewrite (lstrip_fixed _ _ (normalize_word_starts w)) in Hlen.
    pose proof (rstrip_shorter _ _ E) as Hlt.
    rewrite H in Hlen. lia.
  - intros E. apply normalize_word_fixed.
    + apply normalize_word_starts.
    + exact E.
    + apply normalize_word_ends.
    + unfold Audio.normalize_word, PyStr.lower.
      apply map_chars_idempotent, lower_char_idempotent.
Qed.

(** X7: a normalized word never starts with white space, never ends with
    punctuation and is in lower case. *)
Theorem normalized_word_shape (w : string) :
  PyStr.starts_in PyStr.isspace (Audio.normalize_word w) = false
  /\ PyStr.ends_in PyStr.is_punctuation (Audio.normalize_word w) = false
  /\ PyStr.lower (Audio.normalize_word w) = Audio.normalize_word w.
Proof.
  split; [apply normalize_word_starts|]. split; [apply normalize_word_ends|].
  unfold Audio.normalize_word, PyStr.lower.
  apply map_chars_idempotent, lower_char_idempotent.
Qed.

(** C10 (as stated) fails on a word whose punctuation follows a space:
    the first pass leaves the space, the second removes it. *)
Lemma normalize_word_not_idempotent :
  Audio.normalize_word "a ." = "a "
  /\ Audio.normalize_word (Audio.normalize_word "a .") = "a"
  /\ Audio.normalize_word (Audio.normalize_word "a .") <> Audio.normalize_word "a .".
Proof. repeat split; [vm_compute; reflexivity .. | vm_compute; discriminate]. Qed.

Example normalize_word_examples :
  Audio.normalize_word " Luffy," = "luffy"
  /\ Audio.normalize_word "Goku!?" = "goku"
  /\ Audio.normalize_word (Audio.normalize_word " Luffy,") = "luffy".
Proof. repeat split; reflexivity. Qed.

Example string_builtins :
  PyStr.split "_" "rec1_segment_12_luffy.mp4" = ["rec1"; "segment"; "12"; "luffy.mp4"]
  /\ PyStr.split "_segment_" "rec1_segment_12_luffy.mp4" = ["rec1"; "12_luffy.mp4"]
  /\ PyStr.split "_" "a__b_" = ["a"; ""; "b"; ""]
  /\ PyStr.replace ".mp4" "" "luffy.mp4" = "luffy"
  /\ PyStr.int " 012 " = Some 12%Z
  /\ PyStr.int "segment" = None
  /\ PyStr.endswith ".mp4" "x.mp4" = true
  /\ Os.splitext_root (Os.basename "temp_transcriptions/a.b_segments.json") = "a.b_segments"
  /\ Os.path_join "clips" "luffy" = "clips/luffy".
Proof. repeat split; reflexivity. Qed.

(** ** Segment derivation ([audio.py]) *)

Section Derivation.

Import Audio.

Lemma index_middle {A} (pre suf : list A) (x : A) :
  index (pre ++ x :: suf) (length pre) = Ok x.
Proof. unfold index. rewrite list_lookup_middle; reflexivity. Qed.

(** The loop body at the position of [r]. *)
Lemma end_time_at_middle (pre suf : list RawTimestamp) (r : RawTimestamp) (d : float) :
  end_time_at (pre ++ r :: suf) d (length pre)
  = Ok {| Folder := raw_Folder r;
          starttime := raw_starttime r;
          endtime := match suf with
                     | r' :: _ => raw_starttime r'
                     | [] => d
                     end |}.
Proof.
  unfold end_time_at. rewrite index_middle. cbn [mbind result_bind].
  destruct suf as [|r' suf'].
  - rewrite bool_decide_false; [reflexivity|].
    rewrite length_app. simpl. lia.
  - rewrite bool_decide_true by (rewrite length_app; simpl; lia).
    replace (pre ++ r :: r' :: suf') with ((pre ++ [r]) ++ r' :: suf')
      by (rewrite <- app_assoc; reflexivity).
    replace (length pre + 1) with (length (pre ++ [r]))
      by (rewrite length_app; reflexivity).
    rewrite index_middle. reflexivity.
Qed.

(** The indexed loop computes [end_times]. *)
Lemma end_time_loop (suf pre : list RawTimestamp) (d : float) :
  mapM (end_time_at (pre ++ suf) d) (seq (length pre) (length suf))
  = Ok (end_times suf d).
Proof.
  revert pre. induction suf as [|r suf IH]; intros pre; [reflexivity|].
  cbn [length seq mapM end_times].
  rewrite end_time_at_middle. cbn [mbind result_bind].
  specialize (IH (pre ++ [r])).
  rewrite <- app_assoc in IH. cbn [app] in IH.
  rewrite length_app in IH. cbn [length] in IH.
  replace (length pre + 1) with (S (length pre)) in IH by lia.
  rewrite IH. reflexivity.
Qed.

(** What [process_timestamps] returns: it never raises. *)
Lemma process_timestamps_eq (raw : list RawTimestamp) (d : float) :
  process_timestamps raw d
  = Ok (match raw with
        | [] => []
        | first :: rest =>
            end_times ({| raw_Folder := raw_Folder first; raw_starttime := 0 |} :: rest) d
        end).
Proof.
  destruct raw as [|first rest]; [reflexivity|].
  unfold process_timestamps. cbn [index lookup list_lookup mbind result_bind].
  cbn [insert list_insert].
  exact (end_time_loop _ [] d).
Qed.

Lemma end_times_length raw d : length (end_times raw d) = length raw.
Proof. induction raw; simpl; congruence. Qed.

Lemma end_times_Folder raw d : map Folder (end_times raw d) = map raw_Folder raw.
Proof. induction raw; simpl; congruence. Qed.

Lemma end_times_contiguous raw d i s t :
  end_times raw d !! i = Some s ->
  end_times raw d !! S i = Some t ->
  endtime s = starttime t.
Proof.
  revert i. induction raw as [|r raw IH]; intros i; [discriminate|].
  destruct i as [|i]; simpl.
  - intros [= <-]. destruct raw as [|r' raw']; [discriminate|].
    simpl. intros [= <-]. reflexivity.
  - apply IH.
Qed.

Lemma end_times_last raw d s :
  last (end_times raw d) = Some s ->
  endtime s = d /\ (exists r, last raw = Some r /\ Folder s = raw_Folder r
                                /\ starttime s = raw_starttime r).
Proof.
  induction raw as [|r raw IH]; [discriminate|].
  destruct raw as [|r' raw'].
  - simpl. intros [= <-]. simpl. eauto.
  - intros H. apply IH. exact H.
Qed.

End Derivation.

(** C6: for a non-empty event list the derivation returns one segment per
    event, in the order of the events and with their keywords, and the first
    segment starts at exactly 0.0 whatever the first event's timestamp. *)
Theorem first_segment_starts_at_zero (raw : list Audio.RawTimestamp) (d : float) :
  raw <> [] ->
  exists segs first,
    Audio.process_timestamps raw d = Ok segs
    /\ head segs = Some first
    /\ Audio.starttime first = 0%float
    /\ length segs = length raw
    /\ map Audio.Folder segs = map Audio.raw_Folder raw.
Proof.
  intros Hne. rewrite process_timestamps_eq.
  destruct raw as [|r rest]; [contradiction|].
  eexists _, _. split; [reflexivity|].
  split; [reflexivity|]. split; [reflexivity|].
  rewrite end_times_length, end_times_Folder. split; reflexivity.
Qed.

Lemma first_segment_starts_at_zero_witness :
  Fixture.sample_events <> []
  /\ exists segs first,
       Audio.process_timestamps Fixture.sample_events 15 = Ok segs
       /\ head segs = Some first
       /\ Audio.starttime first = 0%float
       /\ length segs = length Fixture.sample_events
       /\ map Audio.Folder segs = map Audio.raw_Folder Fixture.sample_events.
Proof.
  split; [discriminate|].
  apply (first_segment_starts_at_zero Fixture.sample_events 15). discriminate.
Defined.

(** C5: when the derivation returns a non-empty list, each segment ends
    where the next one starts and the last segment ends at the total
    duration; in both cases the two times are the same float. *)
Theorem segments_contiguous (raw : list Audio.RawTimestamp) (d : float)
    (segs : list Audio.Segment) :
  Audio.process_timestamps raw d = Ok segs ->
  segs <> [] ->
  (forall i s t, segs !! i = Some s -> segs !! S i = Some t ->
                 Audio.endtime s = Audio.starttime t)
  /\ (exists s, last segs = Some s /\ Audio.endtime s = d).
Proof.
  rewrite process_timestamps_eq. intros Heq Hne. injection Heq as <-.
  destruct raw as [|r rest]; [contradiction|].
  set (raw' := {| Audio.raw_Folder := Audio.raw_Folder r; Audio.raw_starttime := 0 |} :: rest)
    in *.
  split.
  - intros i s t. apply (end_times_contiguous raw' d).
  - destruct (last (Audio.end_times raw' d)) as [s|] eqn:E.
    + exists s. split; [exact E|]. apply (end_times_last _ _ _ E).
    + apply last_None in E. destruct (Hne E).
Qed.

Lemma segments_contiguous_witness :
  let segs := [Fixture.seg "luffy" 0 10; Fixture.seg "naruto" 10 15] in
  Audio.process_timestamps Fixture.sample_events 15 = Ok segs
  /\ segs <> []
  /\ (forall i s t, segs !! i = Some s -> segs !! S i = Some t ->
                    Audio.endtime s = Audio.starttime t)
  /\ (exists s, last segs = Some s /\ Audio.endtime s = 15%float).
Proof.
  split; [reflexivity|]. split; [discriminate|].
  apply (segments_contiguous Fixture.sample_events 15); [reflexivity | discriminate].
Defined.

(** C2 (as stated) fails: with the last keyword at 10.0 and a total
    duration of 5.0 the derivation raises nothing and returns a last segment
    running from 10.0 to 5.0. *)
Lemma negative_duration_is_returned :
  (5 <? 10)%float = true
  /\ Audio.process_timestamps Fixture.sample_events 5
     = Ok [Fixture.seg "luffy" 0 10; Fixture.seg "naruto" 10 5]
  /\ (Audio.duration (Fixture.seg "naruto" 10 5) <? 0)%float = true.
Proof. repeat split; vm_compute; reflexivity. Qed.

(** C2 (as amended): the derivation checks no duration.  For every
    non-empty event list it returns one segment per event and the last
    segment ends at the total duration as given; when there are two events
    or more and the last event starts after the total duration, that last
    segment is returned with its end before its start. *)
Theorem derivation_checks_no_duration (raw : list Audio.RawTimestamp) (d : float) :
  raw <> [] ->
  exists segs s,
    Audio.process_timestamps raw d = Ok segs
    /\ length segs = length raw
    /\ last segs = Some s
    /\ Audio.endtime s = d
    /\ (forall r, 2 <= length raw -> last raw = Some r ->
                  (d <? Audio.raw_starttime r)%float = true ->
                  Audio.starttime s = Audio.raw_starttime r
                  /\ (Audio.endtime s <? Audio.starttime s)%float = true).
Proof.
  intros Hne. rewrite process_timestamps_eq.
  destruct raw as [|r0 rest]; [contradiction|].
  set (raw' := {| Audio.raw_Folder := Audio.raw_Folder r0; Audio.raw_starttime := 0 |} :: rest).
  destruct (last (Audio.end_times raw' d)) as [s|] eqn:E;
    [|apply last_None in E; discriminate].
  exists (Audio.end_times raw' d), s.
  split; [reflexivity|]. split; [rewrite end_times_length; reflexivity|]. split; [exact E|].
  destruct (end_times_last _ _ _ E) as (Hend & r' & Hlast & _ & Hstart).
  split; [exact Hend|].
  intros r Hlen Hr Hlt.
  destruct rest as [|r1 rest']; [simpl in Hlen; lia|].
  assert (r' = r) as -> by (cbn in Hlast, Hr; congruence).
  rewrite Hend, Hstart. split; [reflexivity | exact Hlt].
Qed.

Lemma derivation_checks_no_duration_witness :
  Fixture.sample_events <> []
  /\ exists segs s,
       Audio.process_timestamps Fixture.sample_events 5 = Ok segs
       /\ length segs = length Fixture.sample_events
       /\ last segs = Some s
       /\ Audio.endtime s = 5%float
       /\ (forall r, 2 <= length Fixture.sample_events -> last Fixture.sample_events = Some r ->
                     (5 <? Audio.raw_starttime r)%float = true ->
                     Audio.starttime s = Audio.raw_starttime r
                     /\ (Audio.endtime s <? Audio.starttime s)%float = true).
Proof.
  split; [discriminate|].
  apply (derivation_checks_no_duration Fixture.sample_events 5). discriminate.
Defined.

(** The events luffy at 2.0 and naruto at 10.0 with a total duration of
    15.0 give the segments luffy from 0.0 to 10.0 and naruto from 10.0 to
    15.0. *)
Example scenario_two_keywords :
  Audio.process_timestamps Fixture.sample_events 15
  = Ok [Fixture.seg "luffy" 0 10; Fixture.seg "naruto" 10 15].
Proof. reflexivity. Qed.

(** Without any event the derivation returns the empty list, whatever
    the total duration. *)
Theorem derivation_of_no_event (d : float) : Audio.process_timestamps [] d = Ok [].
Proof. reflexivity. Qed.

Lemma process_timestamps_folders (raw : list Audio.RawTimestamp) (d : float) :
  exists segs,
    Audio.process_timestamps raw d = Ok segs
    /\ length segs = length raw
    /\ map Audio.Folder segs = map Audio.raw_Folder raw.
Proof.
  rewrite process_timestamps_eq. eexists. split; [reflexivity|].
  destruct raw as [|r rest]; [split; reflexivity|].
  rewrite end_times_length, end_times_Folder. split; reflexivity.
Qed.

(** X3: the derivation never raises; it returns one segment per event, with
    the keywords of the events in their order (repeated mentions of one
    keyword stay separate segments). *)
Theorem derivation_never_raises (raw : list Audio.RawTimestamp) (d : float) :
  exists segs,
    Audio.process_timestamps raw d = Ok segs
    /\ length segs = length raw
    /\ Forall2 (fun s r => Audio.Folder s = Audio.raw_Folder r) segs raw.
Proof.
  destruct (process_timestamps_folders raw d) as (segs & Heq & Hlen & Hfolders).
  exists segs. split; [exact Heq|]. split; [exact Hlen|].
  clear Heq. revert raw Hlen Hfolders.
  induction segs as [|s segs IH]; intros [|r raw] Hlen Hfolders;
    try discriminate; constructor.
  - injection Hfolders as Hs _. exact Hs.
  - apply IH; [simpl in Hlen; lia|]. injection Hfolders as _ Hrest. exact Hrest.
Qed.

Lemma raw_timestamps_in_vocabulary (segments : list (list Audio.Word))
    (keywords : list string) (r : Audio.RawTimestamp) :
  r ∈ Audio.raw_timestamps_of segments keywords -> Audio.raw_Folder r ∈ keywords.
Proof.
  unfold Audio.raw_timestamps_of. rewrite list_elem_of_In, in_flat_map.
  intros (words & _ & Hr). apply in_flat_map in Hr as (w & _ & Hr).
  cbv zeta in Hr. case_bool_decide as Hk; [|destruct Hr].
  destruct Hr as [<-|[]]. exact Hk.
Qed.

(** X4: every segment [process_audio_file] returns carries a keyword of the
    vocabulary: words that do not normalize to a keyword are dropped. *)
Theorem segments_in_vocabulary (segments : list (list Audio.Word))
    (keywords : list string) (d : float) (segs : list Audio.Segment) (s : Audio.Segment) :
  Audio.process_audio_file segments keywords d = Ok segs ->
  s ∈ segs ->
  Audio.Folder s ∈ keywords.
Proof.
  unfold Audio.process_audio_file. intros Hsegs Hs.
  destruct (process_timestamps_folders (Audio.raw_timestamps_of segments keywords) d)
    as (segs' & Heq & _ & Hfolders).
  rewrite Heq in Hsegs. injection Hsegs as ->.
  apply (list_elem_of_fmap_2 Audio.Folder) in Hs.
  change (Audio.Folder <$> segs) with (map Audio.Folder segs) in Hs.
  rewrite Hfolders in Hs.
  apply list_elem_of_fmap in Hs as (r & -> & Hr).
  exact (raw_timestamps_in_vocabulary _ _ _ Hr).
Qed.

Lemma segments_in_vocabulary_witness :
  let segments := [ [ {| Audio.word := " So"; Audio.start := 0.5 |};
                      {| Audio.word := " Luffy,"; Audio.start := 2 |} ] ] in
  Audio.process_audio_file segments ["luffy"; "naruto"] 15 = Ok [Fixture.seg "luffy" 0 15]
  /\ Audio.Folder (Fixture.seg "luffy" 0 15) ∈ ["luffy"; "naruto"].
Proof.
  split; [vm_compute; reflexivity|].
  apply (segments_in_vocabulary
           [ [ {| Audio.word := " So"; Audio.start := 0.5 |};
               {| Audio.word := " Luffy,"; Audio.start := 2 |} ] ]
           ["luffy"; "naruto"] 15 [Fixture.seg "luffy" 0 15]).
  - vm_compute. reflexivity.
  - left.
Defined.

Example scenario_transcription :
  Audio.process_audio_file
    [ [ {| Audio.word := " So"; Audio.start := 0.5 |};
        {| Audio.word := " Luffy,"; Audio.start := 2 |} ];
      [ {| Audio.word := " meets"; Audio.start := 9 |};
        {| Audio.word := " Naruto."; Audio.start := 10 |} ] ]
    ["luffy"; "naruto"; "goku"] 15
  = Ok [Fixture.seg "luffy" 0 10; Fixture.seg "naruto" 10 15].
Proof. vm_compute. reflexivity. Qed.

(** ** Sorting *)

Section Sorting.

Context {A : Type} (le : A -> A -> bool).

Lemma insert_sorted_perm (x : A) (l : list A) : insert_sorted le x l ≡ₚ x :: l.
Proof.
  induction l as [|y l IH]; simpl; [reflexivity|].
  destruct (le x y); [reflexivity|].
  rewrite IH. apply Permutation_swap.
Qed.

Lemma sorted_perm (l : list A) : sorted le l ≡ₚ l.
Proof.
  induction l as [|y l IH]; simpl; [reflexivity|].
  rewrite insert_sorted_perm. apply Permutation_cons; [reflexivity | exact IH].
Qed.

Hypothesis le_total : forall a b, le a b = true \/ le b a = true.
Hypothesis le_trans : forall a b c, le a b = true -> le b c = true -> le a c = true.

Lemma insert_sorted_ordered (x : A) (l : list A) :
  StronglySorted (fun a b => le a b = true) l ->
  StronglySorted (fun a b => le a b = true) (insert_sorted le x l).
Proof.
  induction 1 as [|y l Hl IH Hy]; simpl.
  - repeat constructor.
  - destruct (le x y) eqn:Hxy.
    + constructor; [constructor; assumption|].
      constructor; [exact Hxy|].
      eapply Forall_impl; [exact Hy|].
      intros z Hz. exact (le_trans _ _ _ Hxy Hz).
    + constructor; [exact IH|].
      rewrite insert_sorted_perm. constructor; [|exact Hy].
      destruct (le_total x y) as [H|H]; [congruence | exact H].
Qed.

Lemma sorted_ordered (l : list A) :
  StronglySorted (fun a b => le a b = true) (sorted le l).
Proof.
  induction l as [|y l IH]; simpl; [constructor|].
  apply insert_sorted_ordered, IH.
Qed.

(** Stability: elements that compare as equal keep their order.  [P] is a
    class of such elements: two of its members are never strictly apart. *)
Variable P : A -> Prop.
Context `{forall a, Decision (P a)}.
Hypothesis same_class : forall x y, P x -> P y -> le x y = true.

Lemma insert_sorted_stable (x : A) (l : list A) :
  filter P (insert_sorted le x l) = filter P (x :: l).
Proof.
  induction l as [|y l IH]; simpl; [reflexivity|].
  destruct (le x y) eqn:Hxy; [reflexivity|].
  rewrite !filter_cons in *. rewrite IH.
  destruct (decide (P x)) as [Hx|], (decide (P y)) as [Hy|]; try reflexivity.
  rewrite (same_class x y Hx Hy) in Hxy. discriminate.
Qed.

Lemma sorted_stable (l : list A) : filter P (sorted le l) = filter P l.
Proof.
  induction l as [|y l IH]; simpl; [reflexivity|].
  rewrite insert_sorted_stable, !filter_cons.
  rewrite IH. reflexivity.
Qed.

End Sorting.

Lemma strongly_sorted_lookup {B} (R : B -> B -> Prop) (l : list B) i j x y :
  StronglySorted R l -> i < j -> l !! i = Some x -> l !! j = Some y -> R x y.
Proof.
  intros Hl. revert i j. induction Hl as [|a l Hl IH Ha]; intros i j Hij Hx Hy.
  - discriminate.
  - destruct j as [|j]; [lia|]. destruct i as [|i]; simpl in *.
    + injection Hx as <-. rewrite Forall_forall in Ha.
      apply Ha. eapply list_elem_of_lookup_2; eassumption.
    + apply (IH i j); [lia | assumption..].
Qed.

(** The comparison of keys is a total preorder. *)
Lemma by_key_total {A} (a b : Z * A) : by_key a b = true \/ by_key b a = true.
Proof. unfold by_key. destruct (Z.leb_spec a.1 b.1); [left | right; apply Z.leb_le; lia]; reflexivity. Qed.

Lemma by_key_trans {A} (a b c : Z * A) :
  by_key a b = true -> by_key b c = true -> by_key a c = true.
Proof. unfold by_key. rewrite !Z.leb_le. lia. Qed.

(** So is the comparison of strings, which is antisymmetric as well. *)
Lemma leb_trans (a b c : string) :
  String.leb a b = true -> String.leb b c = true -> String.leb a c = true.
Proof.
  intros Hab Hbc. apply Is_true_true.
  apply Is_true_true in Hab, Hbc.
  exact (transitivity (R := String.le) Hab Hbc).
Qed.

(** [sorted] on strings depends on the elements only, not on the order in
    which they are given. *)
Lemma sorted_strings_unique (l l' : list string) :
  l ≡ₚ l' -> sorted String.leb l = sorted String.leb l'.
Proof.
  intros Hperm.
  apply (StronglySorted_unique_strong (fun a b => String.leb a b = true)).
  - intros a b _ _ Hab Hba. apply String.leb_antisym; assumption.
  - apply sorted_ordered; [apply String.leb_total | apply leb_trans].
  - apply sorted_ordered; [apply String.leb_total | apply leb_trans].
  - rewrite !sorted_perm. exact Hperm.
Qed.

Section SortedByKey.

Context {A : Type} (key : A -> result Z).

Lemma mapM_key (l : list A) :
  (forall x, x ∈ l -> exists n, key x = Ok n) ->
  mapM key l = Ok (map (key_of key) l).
Proof.
  induction l as [|x l IH]; intros H; [reflexivity|].
  cbn [mapM map]. destruct (H x) as [n Hn]; [left|].
  unfold key_of at 1. rewrite Hn. cbn [mbind result_bind].
  rewrite IH; [reflexivity|]. intros y Hy. apply H. right. exact Hy.
Qed.

Lemma zip_decorate (l : list A) : zip (map (key_of key) l) l = map (decorate key) l.
Proof. induction l; simpl; [reflexivity|]. f_equal. assumption. Qed.

Lemma decorated_filter (n : Z) (s : list (Z * A)) :
  Forall (fun a => a.1 = key_of key a.2) s ->
  (filter (fun a => a.1 = n) s).*2 = filter (fun x => key_of key x = n) (s.*2).
Proof.
  induction 1 as [|a s Ha Hs IH]; [reflexivity|].
  rewrite fmap_cons, !filter_cons.
  destruct (decide (a.1 = n)), (decide (key_of key a.2 = n)); try congruence.
  rewrite fmap_cons, IH. reflexivity.
Qed.

Lemma decorated_map (l : list A) :
  Forall (fun a => a.1 = key_of key a.2) (map (decorate key) l).
Proof.
  apply Forall_forall. intros a Ha.
  apply list_elem_of_fmap in Ha as (x & -> & _). reflexivity.
Qed.

Lemma decorate_snd (l : list A) : (map (decorate key) l).*2 = l.
Proof. induction l; simpl; [reflexivity|]. f_equal. assumption. Qed.

(** [sorted(l, key=key)] when every key can be computed: a stable sort. *)
Lemma sorted_by_key_spec (l : list A) :
  (forall x, x ∈ l -> exists n, key x = Ok n) ->
  exists out,
    sorted_by_key key l = Ok out
    /\ out ≡ₚ l
    /\ (forall i j x y, i < j -> out !! i = Some x -> out !! j = Some y ->
                        (key_of key x <= key_of key y)%Z)
    /\ (forall n, filter (fun x => key_of key x = n) out
                  = filter (fun x => key_of key x = n) l).
Proof.
  intros H. unfold sorted_by_key. rewrite (mapM_key l H). cbn [mbind result_bind].
  rewrite zip_decorate.
  set (s := sorted by_key (map (decorate key) l)).
  assert (Hperm : s ≡ₚ map (decorate key) l) by apply sorted_perm.
  assert (Hdec : Forall (fun a => a.1 = key_of key a.2) s).
  { rewrite Hperm. apply decorated_map. }
  exists (s.*2). split; [reflexivity|]. split; [|split].
  - rewrite Hperm. rewrite decorate_snd. reflexivity.
  - intros i j x y Hij Hx Hy.
    apply list_lookup_fmap_Some in Hx as (a & -> & Ha).
    apply list_lookup_fmap_Some in Hy as (b & -> & Hb).
    pose proof (sorted_ordered by_key by_key_total by_key_trans (map (decorate key) l))
      as Hs.
    fold s in Hs.
    apply (strongly_sorted_lookup _ _ i j a b) in Hs; [|assumption..].
    rewrite Forall_forall in Hdec.
    rewrite <- (Hdec a), <- (Hdec b) by (eapply list_elem_of_lookup_2; eassumption).
    apply Z.leb_le. exact Hs.
  - intros n. rewrite <- (decorated_filter n s Hdec).
    unfold s. rewrite (sorted_stable by_key (fun a => a.1 = n)).
    + rewrite (decorated_filter n _ (decorated_map l)), decorate_snd. reflexivity.
    + intros x y Hx Hy. unfold by_key. apply Z.leb_le. lia.
Qed.

End SortedByKey.

Lemma filter_agree {B} (P Q : B -> Prop) `{forall x, Decision (P x)}
    `{forall x, Decision (Q x)} (l : list B) :
  (forall x, x ∈ l -> P x <-> Q x) -> filter P l = filter Q l.
Proof.
  induction l as [|a l IH]; intros Hl; [reflexivity|].
  rewrite !filter_cons.
  assert (P a <-> Q a) as Ha by (apply Hl; left).
  rewrite IH by (intros x Hx; apply Hl; right; exact Hx).
  destruct (decide (P a)), (decide (Q a)); tauto.
Qed.

(** ** Grouping and ordering ([final.py]) *)

(** C7 (as amended): when the third [_]-separated field of every unit's
    name is its segment index, the units of a group are put in ascending
    order of index whatever their arrival order, none is lost or added, and
    units that carry the same index raise nothing: all of them are kept, in
    their arrival order. *)
Theorem units_sorted_by_index (group : list string) :
  (forall x, x ∈ group -> exists n, Final.segment_index x = Ok n) ->
  exists out,
    sorted_by_key Final.segment_index group = Ok out
    /\ out ≡ₚ group
    /\ (forall i j x y nx ny,
          i < j -> out !! i = Some x -> out !! j = Some y ->
          Final.segment_index x = Ok nx -> Final.segment_index y = Ok ny ->
          (nx <= ny)%Z)
    /\ (forall n, filter (fun x => Final.segment_index x = Ok n) out
                  = filter (fun x => Final.segment_index x = Ok n) group).
Proof.
  intros Hkeys.
  destruct (sorted_by_key_spec Final.segment_index group Hkeys)
    as (out & Hout & Hperm & Hord & Hstable).
  assert (Hk : forall x n, x ∈ group ->
            Final.segment_index x = Ok n <-> key_of Final.segment_index x = n).
  { intros x n Hx. destruct (Hkeys x Hx) as [m Hm].
    unfold key_of. rewrite Hm. split; congruence. }
  exists out. split; [exact Hout|]. split; [exact Hperm|]. split.
  - intros i j x y nx ny Hij Hx Hy Hnx Hny.
    specialize (Hord i j x y Hij Hx Hy).
    unfold key_of in Hord. rewrite Hnx, Hny in Hord. exact Hord.
  - intros n.
    rewrite (filter_agree _ (fun x => key_of Final.segment_index x = n) out).
    + rewrite Hstable. symmetry. apply filter_agree. intros x Hx. apply Hk, Hx.
    + intros x Hx. apply Hk. rewrite <- Hperm. exact Hx.
Qed.

Lemma units_sorted_by_index_witness :
  let group := ["a_segment_1_naruto.mp4"; "a_segment_0_luffy.mp4"] in
  exists out,
    sorted_by_key Final.segment_index group = Ok out
    /\ out ≡ₚ group
    /\ (forall i j x y nx ny,
          i < j -> out !! i = Some x -> out !! j = Some y ->
          Final.segment_index x = Ok nx -> Final.segment_index y = Ok ny ->
          (nx <= ny)%Z)
    /\ (forall n, filter (fun x => Final.segment_index x = Ok n) out
                  = filter (fun x => Final.segment_index x = Ok n) group).
Proof.
  apply (units_sorted_by_index ["a_segment_1_naruto.mp4"; "a_segment_0_luffy.mp4"]).
  intros x Hx.
  apply elem_of_cons in Hx as [->|Hx]; [exists 1%Z; vm_compute; reflexivity|].
  apply elem_of_cons in Hx as [->|Hx]; [exists 0%Z; vm_compute; reflexivity|].
  apply elem_of_nil in Hx. destruct Hx.
Defined.

(** C7 (as stated) fails on two units of one recording with the same
    index: sorting raises nothing and returns both. *)
Lemma duplicate_index_is_kept :
  Final.segment_index "a_segment_0_luffy.mp4" = Ok 0%Z
  /\ Final.segment_index "a_segment_0_goku.mp4" = Ok 0%Z
  /\ Final.group_names ["a_segment_0_luffy.mp4"; "a_segment_0_goku.mp4"]
     = Ok [("a", ["a_segment_0_luffy.mp4"; "a_segment_0_goku.mp4"])]
  /\ sorted_by_key Final.segment_index ["a_segment_0_luffy.mp4"; "a_segment_0_goku.mp4"]
     = Ok ["a_segment_0_luffy.mp4"; "a_segment_0_goku.mp4"].
Proof. repeat split; vm_compute; reflexivity. Qed.

(** Two units of recording R that arrive with index 1 before index 0
    come out with index 0 first. *)
Example scenario_reversed_arrival :
  sorted_by_key Final.segment_index ["R_segment_1_goku.mp4"; "R_segment_0_luffy.mp4"]
  = Ok ["R_segment_0_luffy.mp4"; "R_segment_1_goku.mp4"].
Proof. vm_compute. reflexivity. Qed.

Example index_after_underscore_in_name :
  sorted_by_key Final.segment_index ["my_rec_segment_0_luffy.mp4"]
  = Raise (ValueError "segment").
Proof. vm_compute. reflexivity. Qed.

(** An index field padded with a separator character, which [strip] would
    remove, is not a number for [int]; one padded with a space is. *)
Example index_with_padding :
  Final.segment_index ("a_segment_" ++ String (ascii_of_nat 28) "1" ++ "_luffy.mp4")
  = Raise (ValueError (String (ascii_of_nat 28) "1"))
  /\ Final.segment_index "a_segment_ 1_luffy.mp4" = Ok 1%Z.
Proof. split; vm_compute; reflexivity. Qed.

(** ** Titles ([ahmi.py]) *)

(** C9 (as amended): on the keywords luffy, goku the title is
    [luffy vs goku] followed by the tag elements, which are [#animebattle]
    and one pair [#category #keyword] per keyword, joined by spaces in
    lexicographic order of the elements; a pair is never split, so
    [#onepiece] stays before [#luffy]. *)
Theorem title_luffy_goku (for_filename : bool) :
  Ahmi.create_title [Fixture.entry "luffy"; Fixture.entry "goku"] for_filename
  = ("luffy vs goku "
     ++ PyStr.join " " (sorted String.leb ["#onepiece #luffy"; "#dbz #goku"; "#animebattle"]))%string
  /\ Ahmi.create_title [Fixture.entry "luffy"; Fixture.entry "goku"] for_filename
     = "luffy vs goku #animebattle #dbz #goku #onepiece #luffy".
Proof. destruct for_filename; split; vm_compute; reflexivity. Qed.

(** X6: the rendering of the tags does not depend on the order in which
    the set of tags is enumerated. *)
Theorem tags_order_independent (hashtags : gset string) (enumeration : list string) :
  enumeration ≡ₚ elements hashtags ->
  PyStr.join " " (sorted String.leb enumeration)
  = PyStr.join " " (sorted String.leb (elements hashtags)).
Proof. intros Hperm. rewrite (sorted_strings_unique _ _ Hperm). reflexivity. Qed.

Lemma tags_order_independent_witness :
  let hashtags : gset string := {[ "#animebattle" ]} ∪ {[ "#onepiece #luffy" ]} in
  PyStr.join " " (sorted String.leb ["#onepiece #luffy"; "#animebattle"])
  = PyStr.join " " (sorted String.leb (elements hashtags)).
Proof.
  apply (tags_order_independent ({[ "#animebattle" ]} ∪ {[ "#onepiece #luffy" ]})
           ["#onepiece #luffy"; "#animebattle"]).
  vm_compute. reflexivity.
Defined.

(** C9 (as stated) fails: the tags of the title are not in lexicographic
    order of the individual tags, which would put [#luffy] before
    [#onepiece]. *)
Lemma title_tags_not_sorted_individually :
  let title := Ahmi.create_title [Fixture.entry "luffy"; Fixture.entry "goku"] false in
  let tags := drop 3 (PyStr.split " " title) in
  tags = ["#animebattle"; "#dbz"; "#goku"; "#onepiece"; "#luffy"]
  /\ sorted String.leb tags = ["#animebattle"; "#dbz"; "#goku"; "#luffy"; "#onepiece"]
  /\ sorted String.leb tags <> tags.
Proof. repeat split; [vm_compute; reflexivity .. | vm_compute; discriminate]. Qed.

(** ** Computations *)

Section Computations.

Context {A B : Type}.

Lemma bind_ok (m : M A) (k : A -> M B) w a w1 :
  m w = (Ok a, w1) -> (m ≫= k) w = k a w1.
Proof. intros H. unfold mbind, M_bind. rewrite H. reflexivity. Qed.

Lemma bind_raise (m : M A) (k : A -> M B) w e w1 :
  m w = (Raise e, w1) -> (m ≫= k) w = (Raise e, w1).
Proof. intros H. unfold mbind, M_bind. rewrite H. reflexivity. Qed.

Lemma bind_ok_inv (m : M A) (k : A -> M B) w b w' :
  (m ≫= k) w = (Ok b, w') ->
  exists a w1, m w = (Ok a, w1) /\ k a w1 = (Ok b, w').
Proof.
  unfold mbind, M_bind. destruct (m w) as [[a|e] w1]; [eauto | discriminate].
Qed.

Lemma try_except_raise (m : M A) (h : exn -> M A) w e w1 :
  m w = (Raise e, w1) -> try_except m h w = h e w1.
Proof. intros H. unfold try_except. rewrite H. reflexivity. Qed.

Lemma try_except_ok (m : M A) (h : exn -> M A) w a w1 :
  m w = (Ok a, w1) -> try_except m h w = (Ok a, w1).
Proof. intros H. unfold try_except. rewrite H. reflexivity. Qed.

End Computations.

Lemma for_each_cons {A} (x : A) (l : list A) (body : A -> M unit) w :
  for_each (x :: l) body w = (body x ≫= fun _ => for_each l body) w.
Proof. reflexivity. Qed.

(** A loop stops at the first iteration that raises. *)
Lemma for_each_stops {A} (before after : list A) (x : A) (body : A -> M unit) w w1 e w2 :
  for_each before body w = (Ok tt, w1) ->
  body x w1 = (Raise e, w2) ->
  for_each (before ++ x :: after) body w = (Raise e, w2).
Proof.
  revert w. induction before as [|y before IH]; intros w Hbefore Hx.
  - injection Hbefore as <-. cbn [app]. rewrite for_each_cons.
    apply bind_raise. exact Hx.
  - rewrite for_each_cons in Hbefore.
    apply bind_ok_inv in Hbefore as (u & w0 & Hy & Hrest).
    cbn [app]. rewrite for_each_cons, (bind_ok _ _ _ _ _ Hy).
    apply IH; assumption.
Qed.

(** ** More on strings: fields and separators *)

Section SplitFacts.

Import PyStr.

Lemma append_cons (x : ascii) (s t : string) :
  (String x s ++ t)%string = String x (s ++ t)%string.
Proof. reflexivity. Qed.

Lemma append_nil (t : string) : ("" ++ t)%string = t.
Proof. reflexivity. Qed.

Lemma rev_onto_rev_onto (a cur acc : string) :
  rev_onto (rev_onto a cur) acc = rev_onto cur (a ++ acc)%string.
Proof.
  revert cur. induction a as [|x a IH]; intros cur; [reflexivity|].
  cbn [rev_onto]. rewrite IH. reflexivity.
Qed.

Lemma append_empty (s : string) : (s ++ "")%string = s.
Proof. induction s as [|x s IH]; [reflexivity|]. rewrite append_cons, IH. reflexivity. Qed.

Lemma append_assoc (a b c : string) : ((a ++ b) ++ c)%string = (a ++ b ++ c)%string.
Proof.
  induction a as [|x a IH]; [reflexivity|]. rewrite !append_cons, IH. reflexivity.
Qed.

Lemma rev_rev_onto (a : string) : rev (rev_onto a "") = a.
Proof. unfold rev. rewrite rev_onto_rev_onto. cbn [rev_onto]. apply append_empty. Qed.

Lemma prefix_append (s rest : string) : String.prefix s (s ++ rest) = true.
Proof.
  induction s as [|x s IH]; [destruct rest; reflexivity|].
  rewrite append_cons. cbn [String.prefix].
  destruct (ascii_dec x x); [exact IH | contradiction].
Qed.

Lemma prefix_other_head (c x : ascii) (sep' s : string) :
  Ascii.eqb x c = false -> String.prefix (String c sep') (String x s) = false.
Proof.
  intros Hx. cbn [String.prefix]. destruct (ascii_dec c x) as [->|]; [|reflexivity].
  rewrite Ascii.eqb_refl in Hx. discriminate.
Qed.

Variables (c : ascii) (sep' : string).
Let sep := String c sep'.

(** Characters other than the first of the separator are read into the
    current field. *)
Lemma split_from_reads (a cur rest : string) :
  has_char c a = false ->
  split_from sep 0 cur (a ++ rest) = split_from sep 0 (rev_onto a cur) rest.
Proof.
  revert cur. induction a as [|x a IH]; intros cur Ha; [reflexivity|].
  cbn [has_char] in Ha. apply orb_false_iff in Ha as [Hx Ha].
  rewrite append_cons. cbn [split_from]. unfold sep at 1.
  rewrite (prefix_other_head _ _ _ _ Hx). rewrite IH by exact Ha. reflexivity.
Qed.

(** The characters of a separator occurrence are dropped. *)
Lemma split_from_skips (t cur rest : string) :
  split_from sep (String.length t) cur (t ++ rest) = split_from sep 0 cur rest.
Proof.
  induction t as [|x t IH]; [reflexivity|].
  rewrite append_cons. cbn [String.length split_from]. exact IH.
Qed.

(** A field free of the separator's first character, followed by the
    separator, is the first field. *)
Lemma split_first_field (a rest : string) :
  has_char c a = false ->
  split sep (a ++ sep ++ rest) = a :: split sep rest.
Proof.
  intros Ha. unfold split. rewrite (split_from_reads a _ _ Ha).
  unfold sep at 2. rewrite append_cons. cbn [split_from].
  change (String c (sep' ++ rest)%string) with (sep ++ rest)%string.
  rewrite prefix_append. rewrite rev_rev_onto.
  f_equal. unfold sep at 2. cbn [String.length]. rewrite Nat.sub_1_r. cbn [Nat.pred].
  apply split_from_skips.
Qed.

(** A text free of the separator's first character is one field. *)
Lemma split_single_field (a : string) :
  has_char c a = false -> split sep a = [a].
Proof.
  intros Ha. unfold split.
  rewrite <- (append_empty a) at 1. rewrite (split_from_reads a _ _ Ha).
  cbn [split_from]. rewrite rev_rev_onto. reflexivity.
Qed.

End SplitFacts.

(** ** The file system *)

Lemma with_files_same (w : World) : with_files (files w) w = w.
Proof. destruct w. reflexivity. Qed.

Lemma print_files line w : files (Os.print line w).2 = files w.
Proof. reflexivity. Qed.

Lemma print_cwd line w : cwd (Os.print line w).2 = cwd w.
Proof. reflexivity. Qed.

(** What a path leads to depends on the nodes and the working directory
    only. *)
Lemma stat_same_files (p : string) (w w' : World) :
  files w' = files w -> cwd w' = cwd w -> Os.stat p w' = Os.stat p w.
Proof.
  intros Hf Hc. unfold Os.stat, Os.resolve, Os.origin. rewrite Hf, Hc. reflexivity.
Qed.

Lemma present_same_files (p : string) (w w' : World) :
  files w' = files w -> cwd w' = cwd w -> Os.present p w' = Os.present p w.
Proof. intros Hf Hc. unfold Os.present. rewrite (stat_same_files p w w' Hf Hc). reflexivity. Qed.

Lemma print_present (line : printed) (w w' : World) (r : result unit) (p : string) :
  Os.print line w = (r, w') -> Os.present p w' = Os.present p w.
Proof. intros [= _ <-]. apply present_same_files; reflexivity. Qed.

Lemma node_at_snoc (k : node) (name : string) (fs : list (node * content)) :
  Os.node_at (k ++ [name]) fs = Os.content_at (k ++ [name]) fs.
Proof. destruct k; reflexivity. Qed.

Lemma node_at_nonempty (k : node) (fs : list (node * content)) :
  k <> [] -> Os.node_at k fs = Os.content_at k fs.
Proof. destruct k; [contradiction | reflexivity]. Qed.

Lemma node_at_content (k : node) (fs : list (node * content)) (c : content) :
  Os.content_at k fs = Some c -> k <> [] -> Os.node_at k fs = Some c.
Proof. destruct k; [contradiction | intros H _; exact H]. Qed.

Section Removal.

Variable K : node.

Let kept (fs : list (node * content)) : list (node * content) :=
  filter (fun e : node * content => e.1 ≠ K) fs.

Lemma content_at_kept (k : node) (fs : list (node * content)) :
  Os.content_at k (kept fs) = if decide (k = K) then None else Os.content_at k fs.
Proof.
  unfold kept. induction fs as [|[q c] fs IH]; [destruct (decide (k = K)); reflexivity|].
  rewrite filter_cons. cbn [fst Os.content_at].
  destruct (decide (q ≠ K)) as [Hq|Hq].
  - cbn [Os.content_at]. case_bool_decide as E.
    + subst q. destruct (decide (k = K)); [contradiction | reflexivity].
    + exact IH.
  - apply dec_stable in Hq. subst q. rewrite IH.
    case_bool_decide as E; [|reflexivity].
    subst k. destruct (decide (K = K)); [reflexivity | contradiction].
Qed.

(** Removing a node uncovers nothing. *)
Lemma node_at_kept (k : node) (fs : list (node * content)) (c : content) :
  Os.node_at k (kept fs) = Some c -> Os.node_at k fs = Some c.
Proof.
  destruct k as [|a k]; [intros H; exact H|].
  cbn [Os.node_at]. rewrite content_at_kept.
  destruct (decide (a :: k = K)); intros H; [discriminate H | exact H].
Qed.

Lemma node_at_kept_other (k : node) (fs : list (node * content)) :
  k <> K -> Os.node_at k (kept fs) = Os.node_at k fs.
Proof.
  intros Hk. destruct k as [|a k]; [reflexivity|].
  cbn [Os.node_at]. rewrite content_at_kept.
  destruct (decide (a :: k = K)); [contradiction | reflexivity].
Qed.

Lemma node_at_kept_gone (fs : list (node * content)) :
  K <> [] -> Os.node_at K (kept fs) = None.
Proof.
  intros HK. rewrite (node_at_nonempty _ _ HK), content_at_kept.
  destruct (decide (K = K)); [reflexivity | contradiction].
Qed.

(** A path that can be followed once a node is removed could be followed
    before, and led to the same node. *)
Lemma walk_kept (p : string) (fs : list (node * content)) (names : list string)
    (k0 k : node) :
  Os.walk p (kept fs) k0 names = Ok k -> Os.walk p fs k0 names = Ok k.
Proof.
  revert k0. induction names as [|name names IH]; intros k0; [intros H; exact H|].
  cbn [Os.walk]. destruct (Os.node_at k0 (kept fs)) as [c|] eqn:E; [|discriminate].
  rewrite (node_at_kept _ _ _ E). destruct c; try discriminate. apply IH.
Qed.

(** A path that led to a node other than the removed one, through
    directories, still does. *)
Lemma walk_kept_back (p : string) (fs : list (node * content)) (names : list string)
    (k0 k : node) :
  Os.node_at K fs <> Some Directory ->
  Os.walk p fs k0 names = Ok k -> Os.walk p (kept fs) k0 names = Ok k.
Proof.
  intros HK. revert k0. induction names as [|name names IH]; intros k0; [intros H; exact H|].
  cbn [Os.walk]. destruct (Os.node_at k0 fs) as [c|] eqn:E; [|discriminate].
  destruct c; try discriminate.
  rewrite node_at_kept_other by (intros ->; congruence). rewrite E. apply IH.
Qed.

End Removal.

(** The world a successful [os.remove] leaves: the node the path led to,
    which was a file, is gone and nothing else has changed. *)
Lemma remove_inv (p : string) (w w' : World) :
  Os.remove p w = (Ok tt, w') ->
  exists k c,
    Os.resolve p w = Ok k /\ k <> [] /\ Os.node_at k (files w) = Some c /\ c <> Directory
    /\ w' = with_files (filter (fun e : node * content => e.1 ≠ k) (files w)) w.
Proof.
  unfold Os.remove. destruct (Os.resolve p w) as [k|e] eqn:R; [|discriminate].
  destruct (Os.node_at k (files w)) as [c|] eqn:N; [|discriminate].
  destruct c; try discriminate; intros [= <-];
    (exists k; eexists; split; [reflexivity|]; split;
       [intros ->; discriminate N | split; [exact N | split; [discriminate | reflexivity]]]).
Qed.


Lemma origin_with_files (p : string) (fs : list (node * content)) (w : World) :
  Os.origin p (with_files fs w) = Os.origin p w.
Proof. reflexivity. Qed.

(** What a path leads to once the node [k] is removed, it led to before,
    and it is another node. *)
Lemma stat_kept (p : string) (k : node) (w : World) (c : content) :
  k <> [] ->
  Os.stat p (with_files (filter (fun e : node * content => e.1 ≠ k) (files w)) w) = Ok c ->
  exists k', Os.resolve p w = Ok k' /\ k' <> k /\ Os.node_at k' (files w) = Some c.
Proof.
  intros Hk. unfold Os.stat, Os.resolve. cbn [files with_files]. rewrite origin_with_files.
  destruct (Os.origin p w) as [k0|e]; [|intros H; discriminate H].
  cbn [mbind result_bind].
  destruct (Os.walk p (filter _ (files w)) k0 (PyStr.split "/" p)) as [k'|e] eqn:W;
    [|intros H; discriminate H].
  cbn [mbind result_bind].
  destruct (Os.node_at k' (filter _ (files w))) as [c'|] eqn:N; intros H; [|discriminate H].
  injection H as ->. apply walk_kept in W. exists k'. split; [exact W|]. split.
  - intros ->. rewrite node_at_kept_gone in N by exact Hk. discriminate N.
  - exact (node_at_kept _ _ _ _ N).
Qed.

(** Once removed, a path leads nowhere. *)
Lemma removed_is_absent (p : string) (w w' : World) :
  Os.remove p w = (Ok tt, w') -> Os.present p w' = false.
Proof.
  intros H. apply remove_inv in H as (k & c & R & Hk & N & Hc & ->).
  unfold Os.present. destruct (Os.stat p _) as [c'|e] eqn:S; [|reflexivity].
  apply (stat_kept _ _ _ _ Hk) in S as (k' & R' & Hk' & _). congruence.
Qed.

(** What is absent stays absent when something is removed. *)
Lemma remove_keeps_absent (p q : string) (w w' : World) :
  Os.remove p w = (Ok tt, w') -> Os.present q w = false -> Os.present q w' = false.
Proof.
  intros H. apply remove_inv in H as (k & c & R & Hk & N & Hc & ->).
  unfold Os.present at 2. destruct (Os.stat q _) as [c'|e] eqn:S; [|reflexivity].
  apply (stat_kept _ _ _ _ Hk) in S as (k' & R' & _ & N').
  unfold Os.present, Os.stat. rewrite R'. cbn [mbind result_bind]. rewrite N'.
  intros H; discriminate H.
Qed.

(** *** Paths of one name *)

Lemma prefix_has_char (c : ascii) (s : string) :
  String.prefix (String c "") s = true -> has_char c s = true.
Proof.
  destruct s as [|x s]; [discriminate|]. cbn [String.prefix has_char].
  destruct (ascii_dec c x) as [->|]; [|discriminate].
  rewrite Ascii.eqb_refl. reflexivity.
Qed.

Section PlainNames.

Variable p : string.
Hypothesis Hp : plain_name p = true.

Lemma plain_name_inv :
  p <> "" /\ p <> "." /\ p <> ".." /\ has_char "/" p = false /\ has_char "000" p = false.
Proof.
  unfold plain_name in Hp. rewrite !andb_true_iff, !negb_true_iff in Hp.
  destruct Hp as [[[[H1 H2] H3] H4] H5].
  apply String.eqb_neq in H1, H2, H3. auto.
Qed.

Lemma split_plain : PyStr.split "/" p = [p].
Proof. apply split_single_field. apply plain_name_inv. Qed.

Lemma origin_plain (w : World) : Os.origin p w = Ok (cwd w).
Proof.
  destruct plain_name_inv as (H1 & _ & _ & H4 & H5). unfold Os.origin.
  apply String.eqb_neq in H1. rewrite H1, H5.
  unfold PyStr.startswith. destruct (String.prefix "/" p) eqn:E; [|reflexivity].
  apply prefix_has_char in E. congruence.
Qed.

Lemma step_plain (k : node) : Os.step k p = k ++ [p].
Proof.
  destruct plain_name_inv as (H1 & H2 & H3 & _). unfold Os.step.
  apply String.eqb_neq in H1, H2, H3. rewrite H1, H2, H3. reflexivity.
Qed.

Lemma resolve_plain (w : World) :
  Os.resolve p w
  = match Os.node_at (cwd w) (files w) with
    | Some Directory => Ok (cwd w ++ [p])
    | Some _ => Raise (NotADirectoryError p)
    | None => Raise (FileNotFoundError p)
    end.
Proof.
  unfold Os.resolve. rewrite origin_plain, split_plain. cbn [mbind result_bind Os.walk].
  rewrite step_plain. reflexivity.
Qed.




End PlainNames.


(** *** Loops *)

Section Loops.

Context {A B C : Type}.

Lemma bind_cong (m m' : M A) (k : A -> M B) (w w' : World) :
  m w = m' w' -> (m ≫= k) w = (m' ≫= k) w'.
Proof. intros H. unfold mbind, M_bind. rewrite H. reflexivity. Qed.

Lemma bind_assoc (m : M A) (k : A -> M B) (k' : B -> M C) (w : World) :
  ((m ≫= k) ≫= k') w = (m ≫= fun a => k a ≫= k') w.
Proof. unfold mbind, M_bind. destruct (m w) as [[a|e] w1]; reflexivity. Qed.

Lemma try_except_cong (m m' : M A) (h : exn -> M A) (w w' : World) :
  m w = m' w' -> try_except m h w = try_except m' h w'.
Proof. intros H. unfold try_except. rewrite H. reflexivity. Qed.

End Loops.

Lemma for_each_app {A} (l1 l2 : list A) (body : A -> M unit) (w : World) :
  for_each (l1 ++ l2) body w = (for_each l1 body ;; for_each l2 body) w.
Proof.
  revert w. induction l1 as [|x l1 IH]; intros w; [reflexivity|].
  cbn [app for_each]. unfold mbind, M_bind. destruct (body x w) as [[u|e] w1]; [|reflexivity].
  rewrite IH. reflexivity.
Qed.

(** A loop whose first iterations return goes on with the others. *)
Lemma for_each_resumes {A} (done rest : list A) (body : A -> M unit) (w w1 : World) :
  for_each done body w = (Ok tt, w1) ->
  for_each (done ++ rest) body w = for_each rest body w1.
Proof. intros H. rewrite for_each_app, (bind_ok _ _ _ _ _ H). reflexivity. Qed.

Lemma enumerate_from {A} (n : nat) (before after : list A) :
  zip (seq n (length (before ++ after))) (before ++ after)
  = zip (seq n (length before)) before
    ++ zip (seq (n + length before) (length after)) after.
Proof.
  revert n. induction before as [|x before IH]; intros n.
  - cbn. rewrite Nat.add_0_r. reflexivity.
  - cbn [app length seq zip zip_with]. rewrite IH. f_equal.
    replace (S n + length before) with (n + S (length before)) by lia. reflexivity.
Qed.

Lemma enumerate_middle {A} (before after : list A) (x : A) :
  enumerate (before ++ x :: after)
  = enumerate before
    ++ (length before, x) :: zip (seq (S (length before)) (length after)) after.
Proof. unfold enumerate. rewrite enumerate_from. reflexivity. Qed.

Lemma match_middle {A B} (l1 l2 : list A) (x : A) (a b : B) :
  match l1 ++ x :: l2 with [] => a | _ :: _ => b end = b.
Proof. destruct l1; reflexivity. Qed.


(** Looking at the file system changes nothing, and what is seen depends
    on the nodes and the working directory only. *)
Lemma path_exists_same (p : string) (w w1 : World) :
  files w1 = files w -> cwd w1 = cwd w ->
  Os.path_exists p w1 = ((Os.path_exists p w).1, w1).
Proof.
  intros Hf Hc. unfold Os.path_exists. rewrite (present_same_files p w w1 Hf Hc). reflexivity.
Qed.

Lemma listdir_same (p : string) (w w1 : World) :
  files w1 = files w -> cwd w1 = cwd w ->
  Os.listdir p w1 = ((Os.listdir p w).1, w1).
Proof.
  intros Hf Hc. unfold Os.listdir, Os.resolve, Os.origin. rewrite Hf, Hc.
  destruct (_ ≫= _) as [k|e]; [|reflexivity].
  destruct (Os.node_at k (files w)) as [[]|]; reflexivity.
Qed.

Lemma listdir_unchanged (p : string) (w : World) :
  Os.listdir p w = ((Os.listdir p w).1, w).
Proof. apply listdir_same; reflexivity. Qed.

Lemma content_at_new (k : node) (c : content) (fs : list (node * content)) :
  Os.content_at k fs = None -> Os.content_at k (fs ++ [(k, c)]) = Some c.
Proof.
  induction fs as [|[q d] fs IH]; cbn [app Os.content_at].
  - intros _. rewrite bool_decide_true by reflexivity. reflexivity.
  - case_bool_decide; [intros H'; discriminate H' | exact IH].
Qed.

(** [os.makedirs(p, exist_ok=True)] for a path of one name: it raises and
    changes nothing, or it returns, having added the directory to the
    working directory if it was not there. *)
Lemma makedirs_plain (p : string) (w w' : World) (r : result unit) :
  plain_name p = true ->
  Os.makedirs p w = (r, w') ->
  (exists e, r = Raise e /\ w' = w)
  \/ (r = Ok tt
      /\ (w' = w \/ w' = with_files (files w ++ [(cwd w ++ [p], Directory)]) w)).
Proof.
  intros Hp. unfold Os.makedirs.
  rewrite (origin_plain p Hp), (split_plain p Hp).
  destruct (plain_name_inv p Hp) as (Hne & _).
  cbn [Os.without_trailing_empty]. apply String.eqb_neq in Hne. rewrite Hne.
  cbn [Os.make]. rewrite (step_plain p Hp).
  destruct (Os.node_at (cwd w) (files w)) as [[]|];
    try (intros [= <- <-]; left; eexists; split; [reflexivity | apply with_files_same]).
  rewrite node_at_snoc.
  destruct (Os.content_at (cwd w ++ [p]) (files w)) as [c|] eqn:E.
  - cbn [Os.make]. rewrite ?node_at_snoc, ?E.
    destruct c; intros [= <- <-];
      try (left; eexists; split; [reflexivity | apply with_files_same]).
    right. split; [reflexivity|]. left. apply with_files_same.
  - cbn [Os.make]. rewrite node_at_snoc, (content_at_new _ _ _ E).
    intros [= <- <-]. right. split; [reflexivity|]. right. reflexivity.
Qed.

(** What a successful [os.listdir] of a path of one name says. *)
Lemma listdir_plain_inv (p : string) (w w' : World) (names : list string) :
  plain_name p = true ->
  Os.listdir p w = (Ok names, w') ->
  w' = w
  /\ Os.stat p w = Ok Directory
  /\ names = Os.entries (cwd w ++ [p]) (files w).
Proof.
  intros Hp. unfold Os.listdir, Os.stat. rewrite (resolve_plain p Hp).
  destruct (Os.node_at (cwd w) (files w)) as [[]|]; try (intros H; discriminate H).
  cbn [mbind result_bind].
  destruct (Os.node_at (cwd w ++ [p]) (files w)) as [[]|]; try (intros H; discriminate H).
  intros [= <- <-]. auto.
Qed.
(** ** Composition ([final.py]) *)

(** [if os.path.exists(f): os.remove(f)], when it returns, leaves no [f]
    and brings nothing back. *)
Lemma remove_if_present (f : string) (w w' : World) :
  (Os.path_exists f ≫= fun present : bool =>
     if present then Os.remove f else mret tt) w = (Ok tt, w') ->
  Os.present f w' = false
  /\ forall g, Os.present g w = false -> Os.present g w' = false.
Proof.
  unfold mbind at 1, M_bind, Os.path_exists.
  destruct (Os.present f w) eqn:E.
  - intros H. split; [exact (removed_is_absent _ _ _ H)|].
    intros g. exact (remove_keeps_absent _ _ _ _ H).
  - intros [= <-]. split; [exact E | intros g Hg; exact Hg].
Qed.

Lemma cleanup_spec (l : list string) (w w' : World) :
  for_each l (fun f => Os.path_exists f ≫= fun present : bool =>
                if present then Os.remove f else mret tt) w = (Ok tt, w') ->
  (forall f, f ∈ l -> Os.present f w' = false)
  /\ forall g, Os.present g w = false -> Os.present g w' = false.
Proof.
  revert w. induction l as [|f l IH]; intros w.
  - intros [= <-]. split; [intros f Hf; apply elem_of_nil in Hf; destruct Hf | auto].
  - rewrite for_each_cons. intros H.
    apply bind_ok_inv in H as ([] & w1 & Hf & Hl).
    apply remove_if_present in Hf as [Hgone Hkeep].
    apply IH in Hl as [Hl Hkeep'].
    split; [|intros g Hg; apply Hkeep', Hkeep, Hg].
    intros g Hg. apply elem_of_cons in Hg as [->|Hg]; [apply Hkeep', Hgone | apply Hl, Hg].
Qed.

(** X11: when the composition of a group completes, that is when
    [process_video_group] returns normally, none of the five temporary
    artifacts of steps 1 to 4 exists any more. *)
Theorem temporaries_released_on_success (engine : Engine) (group : list string)
    (w w' : World) :
  Final.process_video_group engine group w = (Ok tt, w') ->
  forall f, f ∈ Final.temporaries -> Os.present f w' = false.
Proof.
  unfold Final.process_video_group. intros H.
  apply bind_ok_inv in H as (first & w1 & _ & H).
  apply bind_ok_inv in H as (base_name & w2 & _ & H).
  cbv zeta in H.
  apply bind_ok_inv in H as (segments & w3 & _ & H).
  apply bind_ok_inv in H as (audio_file & w4 & _ & H).
  apply bind_ok_inv in H as (u5 & w5 & _ & H).
  apply bind_ok_inv in H as (u6 & w6 & _ & H).
  apply bind_ok_inv in H as ([] & w7 & Hclean & H).
  apply bind_ok_inv in H as (u8 & w8 & Hcreated & Htitle).
  unfold Final.cleanup in Hclean. apply cleanup_spec in Hclean as [Hgone _].
  intros f Hf.
  rewrite (print_present _ _ _ _ f Htitle), (print_present _ _ _ _ f Hcreated).
  exact (Hgone f Hf).
Qed.

Lemma temporaries_released_on_success_witness :
  let group := ["b_segment_0_goku.mp4"] in
  let w := (Final.prepare Fixture.composition_world).2 in
  let w' := (Final.process_video_group Fixture.ffmpeg_model group w).2 in
  Final.process_video_group Fixture.ffmpeg_model group w = (Ok tt, w')
  /\ forall f, f ∈ Final.temporaries -> Os.present f w' = false.
Proof.
  split; [vm_compute; reflexivity|].
  apply (temporaries_released_on_success Fixture.ffmpeg_model
           ["b_segment_0_goku.mp4"] (Final.prepare Fixture.composition_world).2).
  vm_compute. reflexivity.
Defined.

(** C8: the claim holds where step 5 completes and fails where it does
    not.  For a group that composes when the engine works, an engine that
    exits with a non-zero status in step 5 makes [process_video_group]
    raise; nothing is printed and all five temporaries are still there: the
    cleanup loop that ends the function is not reached. *)
Lemma temporaries_left_on_failure :
  let engine := Fixture.failing_on "-shortest" Fixture.ffmpeg_model in
  let w := (Final.prepare Fixture.composition_world).2 in
  let group := ["a_segment_1_naruto.mp4"; "a_segment_0_luffy.mp4"] in
  let r := Final.process_video_group engine group w in
  (Final.process_video_group Fixture.ffmpeg_model group w).1 = Ok tt
  /\ r.1 = Raise (CalledProcessError 1)
  /\ forallb (fun f => Os.present f r.2) Final.temporaries = true
  /\ stdout r.2 = [].
Proof. repeat split; vm_compute; reflexivity. Qed.

Lemma main_after_prepare (engine : Engine) (w w0 : World)
    (groups : list (string * list string)) :
  Final.prepare w = (Ok groups, w0) ->
  Final.main engine w
  = try_except
      (match groups with
       | [] => Os.print NoSegmentsFound
       | _ => for_each groups (Final.process_group engine) ;; Os.print AllVideosProcessed
       end)
      (fun e => Os.print (ErrorLine e)) w0.
Proof.
  unfold Final.prepare, Final.main, try_except. intros H.
  apply bind_ok_inv in H as (u & w1 & Hv & H).
  apply bind_ok_inv in H as (missing & w2 & Hm & H).
  rewrite (bind_ok _ _ _ _ _ Hv), (bind_ok _ _ _ _ _ Hm).
  destruct missing; [discriminate|].
  rewrite (bind_ok _ _ _ _ _ H). reflexivity.
Qed.

(** C1 (as amended): when the composition of one group fails, [main]
    catches the error, prints it and returns; the groups before it in
    iteration order have been composed, and the world [main] leaves is the
    one the failed composition left plus the error line, whatever groups
    come after: none of them is attempted. *)
Theorem main_stops_at_failed_group (engine : Engine) (w w0 w1 w2 : World)
    (before after : list (string * list string)) (g : string * list string) (e : exn) :
  Final.prepare w = (Ok (before ++ g :: after), w0) ->
  for_each before (Final.process_group engine) w0 = (Ok tt, w1) ->
  Final.process_group engine g w1 = (Raise e, w2) ->
  Final.main engine w = Os.print (ErrorLine e) w2.
Proof.
  intros Hprep Hbefore Hg.
  rewrite (main_after_prepare _ _ _ _ Hprep).
  pose proof (for_each_stops before after g _ _ _ _ _ Hbefore Hg) as Hloop.
  destruct (before ++ g :: after) as [|g0 gs] eqn:E.
  - destruct before; discriminate.
  - rewrite (try_except_raise _ _ _ e w2); [reflexivity|].
    apply bind_raise. exact Hloop.
Qed.

Lemma main_stops_at_failed_group_witness :
  let engine := Fixture.failing_on "audio/a.mp4" Fixture.ffmpeg_model in
  let w := Fixture.composition_world in
  let w0 := (Final.prepare w).2 in
  let a := ("a", ["a_segment_1_naruto.mp4"; "a_segment_0_luffy.mp4"]) in
  let b := ("b", ["b_segment_0_goku.mp4"]) in
  let w2 := (Final.process_group engine a w0).2 in
  Final.prepare w = (Ok ([] ++ a :: [b]), w0)
  /\ Final.process_group engine a w0 = (Raise (CalledProcessError 1), w2)
  /\ Final.main engine w = Os.print (ErrorLine (CalledProcessError 1)) w2.
Proof.
  split; [vm_compute; reflexivity|]. split; [vm_compute; reflexivity|].
  apply (main_stops_at_failed_group
           (Fixture.failing_on "audio/a.mp4" Fixture.ffmpeg_model)
           Fixture.composition_world
           (Final.prepare Fixture.composition_world).2
           (Final.prepare Fixture.composition_world).2
           _ [] [("b", ["b_segment_0_goku.mp4"])]
           ("a", ["a_segment_1_naruto.mp4"; "a_segment_0_luffy.mp4"])
           (CalledProcessError 1));
    vm_compute; reflexivity.
Defined.

(** C1 (as stated) fails: group [b] composes when it is alone or when the
    engine works, but when the engine fails on the narration of group [a],
    which comes first, [main] ends without composing [b]. *)
Lemma failed_group_stops_the_others :
  let engine := Fixture.failing_on "audio/a.mp4" Fixture.ffmpeg_model in
  let w0 := (Final.prepare Fixture.composition_world).2 in
  let out_b := "final_videos/goku #animebattle #dbz #goku.mp4" in
  let r := Final.main engine Fixture.composition_world in
  (Final.process_group engine ("b", ["b_segment_0_goku.mp4"]) w0).1 = Ok tt
  /\ Os.present out_b (Final.process_group engine ("b", ["b_segment_0_goku.mp4"]) w0).2
     = true
  /\ r.1 = Ok tt
  /\ stdout r.2 = [ProcessingGroup "a" 2; ErrorLine (CalledProcessError 1)]
  /\ Os.present out_b r.2 = false.
Proof. repeat split; vm_compute; reflexivity. Qed.

(** ** Segment assembly ([draft/segments.py]) *)


Lemma run_fails (engine : Engine) cmd w c w' :
  ffmpeg_on_path w = true -> engine cmd w = (c, w') -> c <> 0%Z ->
  Os.run engine cmd w = (Raise (CalledProcessError c), w').
Proof.
  intros Hon H Hc. unfold Os.run. rewrite Hon, H.
  destruct (Z.eqb_spec c 0); [contradiction | reflexivity].
Qed.





(** The only errors of the engine steps are the engine's exit statuses. *)
Lemma create_segment_engine_failure (engine : Engine) (clips : list string)
    (duration : float) (output_path : string) (w w0 w1 : World) (c : Z) :
  Segments.write_clip_list clips w = (Ok tt, w0) ->
  ffmpeg_on_path w0 = true ->
  engine Segments.concat_cmd w0 = (c, w1) ->
  c <> 0%Z ->
  Segments.create_segment engine clips duration output_path w
  = (Raise (CalledProcessError c), w1).
Proof.
  intros Hwrite Hon Hconcat Hc. unfold Segments.create_segment.
  rewrite (bind_ok _ _ _ _ _ Hwrite).
  apply bind_raise. apply run_fails; assumption.
Qed.

Lemma segments_main_after_prepare (engine : Engine) (w w0 : World)
    (json_files : list string) :
  Segments.prepare w = (Ok json_files, w0) ->
  Segments.main engine w
  = try_except
      (match json_files with
       | [] => Os.print NoJsonFilesFound
       | _ => for_each json_files (Segments.process_json engine) ;;
              Os.print AllSegmentsCreated
       end)
      (fun e => Os.print (ErrorLine e)) w0.
Proof.
  unfold Segments.prepare, Segments.main, try_except. intros H.
  apply bind_ok_inv in H as (u & w1 & Hv & H).
  apply bind_ok_inv in H as (names & w2 & Hn & H).
  injection H as <- <-.
  rewrite (bind_ok _ _ _ _ _ Hv), (bind_ok _ _ _ _ _ Hn). reflexivity.
Qed.

(** A segment whose clip-pool lookup raises is logged and skipped. *)
Lemma process_segment_skips (engine : Engine) (base_name : string) (i : nat)
    (segment : Audio.Segment) (w w' : World) (e : exn) :
  Segments.get_clips_for_keyword (Audio.Folder segment) w = (Raise e, w') ->
  Segments.process_segment engine base_name (i, segment) w
  = (Ok tt, (Os.print (SkippingSegment i base_name e) w').2).
Proof.
  intros Hlookup. unfold Segments.process_segment. cbv zeta.
  rewrite (bind_ok _ _ w None (Os.print (SkippingSegment i base_name e) w').2);
    [reflexivity|].
  rewrite (try_except_raise _ _ _ e w'); [reflexivity|].
  apply bind_raise. exact Hlookup.
Qed.

(** C4 (as amended): a failure of the clip-pool lookup of one timeline
    segment is logged and that segment is skipped, and [main] goes on from
    there: what it does and returns is what the remaining segments of the
    recording, then the recordings listed after it, do from the world with
    the skip line. *)
Theorem lookup_failure_is_skipped (engine : Engine) (w w0 w1 w2 w3 w4 : World)
    (earlier later : list string) (json_file : string)
    (before after : list Audio.Segment) (segment : Audio.Segment) (e : exn) :
  let base_name := base_name_of json_file in
  let i := length before in
  let skipped := (Os.print (SkippingSegment i base_name e) w4).2 in
  Segments.prepare w = (Ok (earlier ++ json_file :: later), w0) ->
  for_each earlier (Segments.process_json engine) w0 = (Ok tt, w1) ->
  Os.load_json json_file (Os.print (ProcessingJson json_file) w1).2
  = (Ok (before ++ segment :: after), w2) ->
  for_each (enumerate before) (Segments.process_segment engine base_name) w2
  = (Ok tt, w3) ->
  Segments.get_clips_for_keyword (Audio.Folder segment) w3 = (Raise e, w4) ->
  Segments.process_segment engine base_name (i, segment) w3 = (Ok tt, skipped)
  /\ Segments.main engine w
     = try_except
         (for_each (zip (seq (S i) (length after)) after)
                   (Segments.process_segment engine base_name) ;;
          for_each later (Segments.process_json engine) ;;
          Os.print AllSegmentsCreated)
         (fun e => Os.print (ErrorLine e)) skipped.
Proof.
  intros base_name i skipped Hprep Hearlier Hload Hbefore Hlookup.
  pose proof (process_segment_skips engine base_name i segment w3 w4 e Hlookup) as Hskip.
  split; [exact Hskip|].
  rewrite (segments_main_after_prepare _ _ _ _ Hprep).
  assert (Hrecording :
    Segments.process_json engine json_file w1
    = for_each (zip (seq (S i) (length after)) after)
               (Segments.process_segment engine base_name) skipped).
  { unfold Segments.process_json.
    rewrite (bind_ok _ _ w1 tt (Os.print (ProcessingJson json_file) w1).2) by reflexivity.
    unfold Segments.process_segments. rewrite (bind_ok _ _ _ _ _ Hload).
    rewrite enumerate_middle.
    rewrite (for_each_resumes _ _ _ _ _ Hbefore).
    rewrite for_each_cons. rewrite (bind_ok _ _ _ _ _ Hskip). reflexivity. }
  rewrite match_middle. apply try_except_cong.
  rewrite <- bind_assoc. apply bind_cong.
  rewrite (for_each_resumes _ _ _ _ _ Hearlier).
  rewrite for_each_cons. apply bind_cong. exact Hrecording.
Qed.

Lemma lookup_failure_is_skipped_witness :
  let engine := Fixture.ffmpeg_model in
  let a := "temp_transcriptions/a_segments.json" in
  let b := "temp_transcriptions/b_segments.json" in
  let e := FileNotFoundError "naruto" in
  let w0 := (Segments.prepare Fixture.gap_world).2 in
  let w2 := (Os.print (ProcessingJson a) w0).2 in
  let w3 := (Segments.process_segment engine "a" (0, Fixture.seg "luffy" 0 3) w2).2 in
  let skipped := (Os.print (SkippingSegment 1 "a" e) w3).2 in
  Segments.get_clips_for_keyword "naruto" w3 = (Raise e, w3)
  /\ Segments.process_segment engine "a" (1, Fixture.seg "naruto" 3 5) w3 = (Ok tt, skipped)
  /\ Segments.main engine Fixture.gap_world
     = try_except
         (for_each [(2, Fixture.seg "goku" 5 8)] (Segments.process_segment engine "a") ;;
          for_each [b] (Segments.process_json engine) ;;
          Os.print AllSegmentsCreated)
         (fun e => Os.print (ErrorLine e)) skipped.
Proof.
  split; [vm_compute; reflexivity|].
  apply (lookup_failure_is_skipped Fixture.ffmpeg_model Fixture.gap_world
           (Segments.prepare Fixture.gap_world).2
           (Segments.prepare Fixture.gap_world).2
           (Os.print (ProcessingJson "temp_transcriptions/a_segments.json")
              (Segments.prepare Fixture.gap_world).2).2
           (Segments.process_segment Fixture.ffmpeg_model "a" (0, Fixture.seg "luffy" 0 3)
              (Os.print (ProcessingJson "temp_transcriptions/a_segments.json")
                 (Segments.prepare Fixture.gap_world).2).2).2
           (Segments.process_segment Fixture.ffmpeg_model "a" (0, Fixture.seg "luffy" 0 3)
              (Os.print (ProcessingJson "temp_transcriptions/a_segments.json")
                 (Segments.prepare Fixture.gap_world).2).2).2
           [] ["temp_transcriptions/b_segments.json"]
           "temp_transcriptions/a_segments.json"
           [Fixture.seg "luffy" 0 3] [Fixture.seg "goku" 5 8] (Fixture.seg "naruto" 3 5)
           (FileNotFoundError "naruto"));
    vm_compute; reflexivity.
Defined.

(** C4 (as stated) fails: when the engine fails while the first segment is
    trimmed, [main] ends after printing the error and the second segment,
    which assembles without error on its own, is never assembled. *)
Lemma engine_failure_stops_assembly :
  let engine := Fixture.failing_on "segments/a_segment_0_luffy.mp4" Fixture.ffmpeg_model in
  let w0 := (Segments.validate_environment Fixture.assembly_world).2 in
  let second := "segments/a_segment_1_goku.mp4" in
  let alone := Segments.process_segment engine "a" (1, Fixture.seg "goku" 3 8) w0 in
  let r := Segments.main engine Fixture.assembly_world in
  alone.1 = Ok tt
  /\ Os.present second alone.2 = true
  /\ r.1 = Ok tt
  /\ stdout r.2 = [ProcessingJson "temp_transcriptions/a_segments.json";
                   CreatingSegment 0 "a" 3 "luffy";
                   ErrorLine (CalledProcessError 1)]
  /\ Os.present second r.2 = false.
Proof. repeat split; vm_compute; reflexivity. Qed.

(** ** Numbers in file names *)

Lemma all_chars_starts_ends (p q : ascii -> bool) (s : string) :
  (forall x, p x = true -> q x = false) ->
  all_chars p s = true ->
  PyStr.starts_in q s = false /\ PyStr.ends_in q s = false.
Proof.
  intros Hpq. induction s as [|x s IH]; [split; reflexivity|].
  cbn [all_chars]. intros H. apply andb_true_iff in H as [Hx Hs].
  split; [exact (Hpq x Hx)|].
  destruct s as [|y s']; [exact (Hpq x Hx)|]. apply (IH Hs).
Qed.

Lemma all_chars_has_char (p : ascii -> bool) (c : ascii) (s : string) :
  p c = false -> all_chars p s = true -> has_char c s = false.
Proof.
  intros Hc. induction s as [|x s IH]; [reflexivity|].
  cbn [all_chars has_char]. intros H. apply andb_true_iff in H as [Hx Hs].
  rewrite (IH Hs), orb_false_r. destruct (Ascii.eqb_spec x c) as [->|]; [congruence | reflexivity].
Qed.

Lemma digit_not_space (x : ascii) : PyStr.isdecimal x = true -> PyStr.isspace x = false.
Proof. destruct x as [[] [] [] [] [] [] [] []]; vm_compute; congruence. Qed.

Lemma digits_of_uint (d : Decimal.uint) :
  all_chars PyStr.isdecimal (NilEmpty.string_of_uint d) = true.
Proof. induction d; cbn [NilEmpty.string_of_uint all_chars]; [reflexivity | exact IHd ..]. Qed.

Lemma digit_not_int_space (x : ascii) :
  PyStr.isdecimal x = true -> PyStr.int_space x = false.
Proof. destruct x as [[] [] [] [] [] [] [] []]; vm_compute; congruence. Qed.

(** Reading the digits of a decimal numeral gives its value. *)
Lemma digits_value_of_uint (d : Decimal.uint) (acc : nat) :
  PyStr.digits_value (Z.of_nat acc) true (NilEmpty.string_of_uint d)
  = Some (Z.of_nat (Nat.of_uint_acc d acc)).
Proof.
  revert acc.
  induction d as [|d IH|d IH|d IH|d IH|d IH|d IH|d IH|d IH|d IH|d IH]; intros acc;
    [reflexivity|..];
    cbn [NilEmpty.string_of_uint PyStr.digits_value Nat.of_uint_acc];
    match goal with
    | |- (if ?b then _ else _) = _ => change b with true; cbv iota
    end;
    rewrite <- IH; f_equal;
    rewrite Nat.tail_mul_spec;
    match goal with
    | |- context [Z.of_N ?n] => let v := eval vm_compute in (Z.of_N n) in
                                change (Z.of_N n) with v
    end;
    lia.
Qed.

(** The first digit is read in the same way at the start of the text. *)
Lemma digits_value_start (d : Decimal.uint) (acc : Z) :
  d <> Decimal.Nil ->
  PyStr.digits_value acc false (NilEmpty.string_of_uint d)
  = PyStr.digits_value acc true (NilEmpty.string_of_uint d).
Proof. destruct d; [contradiction | reflexivity ..]. Qed.

Lemma str_of_nat_not_empty (n : nat) : str_of_nat n <> "".
Proof.
  unfold str_of_nat. intros H.
  assert (Hd : Nat.to_uint n = Decimal.Nil) by (destruct (Nat.to_uint n); (reflexivity || discriminate)).
  pose proof (DecimalNat.Unsigned.of_to n) as Hn. rewrite Hd in Hn.
  cbn in Hn. subst n. discriminate.
Qed.

Lemma str_of_nat_digits (n : nat) : all_chars PyStr.isdecimal (str_of_nat n) = true.
Proof. apply digits_of_uint. Qed.

Lemma int_str_of_nat (n : nat) : PyStr.int (str_of_nat n) = Some (Z.of_nat n).
Proof.
  pose proof (str_of_nat_digits n) as Hdigits.
  pose proof (str_of_nat_not_empty n) as Hne.
  destruct (all_chars_starts_ends _ PyStr.int_space _ digit_not_int_space Hdigits) as [Hs He].
  unfold PyStr.int.
  rewrite (lstrip_fixed _ _ Hs), (rstrip_fixed _ _ He).
  assert (Hvalue : PyStr.unsigned_value (str_of_nat n) = Some (Z.of_nat n)).
  { unfold PyStr.unsigned_value, str_of_nat.
    rewrite digits_value_start.
    - etransitivity; [exact (digits_value_of_uint (Nat.to_uint n) 0)|].
      change (Nat.of_uint_acc (Nat.to_uint n) 0) with (Nat.of_uint (Nat.to_uint n)).
      rewrite DecimalNat.Unsigned.of_to. reflexivity.
    - intros Hd. apply Hne. unfold str_of_nat. rewrite Hd. reflexivity. }
  destruct (str_of_nat n) as [|x s] eqn:E; [contradiction|].
  cbn [all_chars] in Hdigits. apply andb_true_iff in Hdigits as [Hx _].
  destruct x as [[] [] [] [] [] [] [] []]; try discriminate Hx; exact Hvalue.
Qed.

(** X15: the index of a unit is written with decimal digits only, so it brings
    no underscore into the file name, and [int(str(n)) == n] reads it back
    for every index [n]. *)
Theorem int_of_str_of_nat (n : nat) :
  all_chars PyStr.isdecimal (str_of_nat n) = true
  /\ has_char "_" (str_of_nat n) = false
  /\ PyStr.int (str_of_nat n) = Some (Z.of_nat n).
Proof.
  split; [apply str_of_nat_digits|]. split; [|apply int_str_of_nat].
  apply (all_chars_has_char PyStr.isdecimal); [reflexivity|apply str_of_nat_digits].
Qed.


(** ** The names of the units, written by [segments.py], read by [final.py] *)

Section UnitNames.

Import SegmentsScript.

Lemma split_from_nonempty (sep : string) (s : string) (skip : nat) (cur : string) :
  PyStr.split_from sep skip cur s <> [].
Proof.
  revert skip cur. induction s as [|x s IH]; intros skip cur; [discriminate|].
  cbn [PyStr.split_from]. destruct skip; [|apply IH].
  destruct (String.prefix sep (String x s)); [discriminate | apply IH].
Qed.

Lemma rev_onto_append (a b acc : string) :
  PyStr.rev_onto (a ++ b) acc = PyStr.rev_onto b (PyStr.rev_onto a acc).
Proof.
  revert acc. induction a as [|x a IH]; intros acc; [reflexivity|].
  rewrite append_cons. cbn [PyStr.rev_onto]. apply IH.
Qed.

Lemma endswith_append (a suffix : string) : PyStr.endswith suffix (a ++ suffix) = true.
Proof.
  unfold PyStr.endswith, PyStr.rev. rewrite rev_onto_append.
  rewrite <- (append_nil (PyStr.rev_onto a "")).
  generalize (PyStr.rev_onto a ""). intros r.
  assert (H : forall s acc, PyStr.rev_onto s (acc ++ r)%string = (PyStr.rev_onto s acc ++ r)%string).
  { induction s as [|x s IH]; intros acc; [reflexivity|].
    cbn [PyStr.rev_onto]. rewrite <- IH. reflexivity. }
  rewrite H. apply prefix_append.
Qed.

Variable base_name : string.
Hypothesis base_plain : has_char "_" base_name = false.

Lemma unit_name_fields (i : nat) (keyword : string) :
  PyStr.split "_" (unit_name base_name i keyword)
  = base_name :: "segment" :: str_of_nat i :: PyStr.split "_" (keyword ++ ".mp4").
Proof.
  unfold unit_name.
  change (base_name ++ "_segment_" ++ str_of_nat i ++ "_" ++ keyword ++ ".mp4")%string
    with (base_name ++ "_" ++ "segment" ++ "_" ++ str_of_nat i ++ "_" ++ keyword ++ ".mp4")%string.
  rewrite (split_first_field "_" "" base_name _ base_plain).
  rewrite (split_first_field "_" "" "segment" _ eq_refl).
  rewrite (split_first_field "_" "" (str_of_nat i)).
  - reflexivity.
  - apply (all_chars_has_char PyStr.isdecimal); [reflexivity | apply str_of_nat_digits].
Qed.

Lemma unit_name_index (i : nat) (keyword : string) :
  Final.segment_index (unit_name base_name i keyword) = Ok (Z.of_nat i).
Proof.
  unfold Final.segment_index. rewrite unit_name_fields.
  cbn [index lookup list_lookup mbind result_bind].
  rewrite int_str_of_nat. reflexivity.
Qed.

Lemma unit_name_group (i : nat) (keyword : string) :
  index (PyStr.split "_segment_" (unit_name base_name i keyword)) 0 = Ok base_name.
Proof.
  unfold unit_name. rewrite (split_first_field "_" "segment_" base_name _ base_plain).
  reflexivity.
Qed.

Lemma unit_name_is_mp4 (i : nat) (keyword : string) :
  PyStr.endswith ".mp4" (unit_name base_name i keyword) = true.
Proof.
  unfold unit_name. rewrite <- !append_assoc. apply endswith_append.
Qed.

End UnitNames.

Lemma sorted_from_lookups {B} (R : B -> B -> Prop) (l : list B) :
  (forall i j x y, i < j -> l !! i = Some x -> l !! j = Some y -> R x y) ->
  StronglySorted R l.
Proof.
  induction l as [|a l IH]; intros H; constructor.
  - apply IH. intros i j x y Hij Hx Hy. apply (H (S i) (S j)); [lia | assumption..].
  - apply Forall_forall. intros y Hy.
    apply list_elem_of_lookup in Hy as [j Hj].
    apply (H 0 (S j)); [lia | reflexivity | exact Hj].
Qed.

Lemma enumerate_lookup {B} (l : list B) (i : nat) (item : nat * B) :
  enumerate l !! i = Some item -> item.1 = i /\ l !! i = Some item.2.
Proof.
  unfold enumerate. intros H.
  apply lookup_zip_with_Some in H as (n & b & -> & Hn & Hb).
  apply lookup_seq in Hn as [-> _]. split; [reflexivity | exact Hb].
Qed.

Lemma unit_names_lookup (base_name : string) (keywords : list string) (i : nat) (x : string) :
  SegmentsScript.unit_names base_name keywords !! i = Some x ->
  exists k, keywords !! i = Some k /\ x = SegmentsScript.unit_name base_name i k.
Proof.
  unfold SegmentsScript.unit_names. intros H.
  apply list_lookup_fmap_Some in H as (item & -> & Hitem).
  apply enumerate_lookup in Hitem as [Hi Hk].
  exists item.2. rewrite Hi. split; [exact Hk | reflexivity].
Qed.

(** X16: a unit name written by [segments.py] for a recording whose name has
    no underscore is read back by [final.py] as written: it is taken as a
    unit, grouped under the recording's name, and its sort key is the
    segment's index. *)
Theorem unit_name_read_back (base_name : string) (i : nat) (keyword : string) :
  has_char "_" base_name = false ->
  PyStr.endswith ".mp4" (SegmentsScript.unit_name base_name i keyword) = true
  /\ index (PyStr.split "_segment_" (SegmentsScript.unit_name base_name i keyword)) 0
     = Ok base_name
  /\ Final.segment_index (SegmentsScript.unit_name base_name i keyword) = Ok (Z.of_nat i).
Proof.
  intros Hbase. split; [apply unit_name_is_mp4|].
  split; [apply unit_name_group | apply unit_name_index]; exact Hbase.
Qed.

Lemma unit_name_read_back_witness :
  has_char "_" "rec1" = false
  /\ PyStr.endswith ".mp4" (SegmentsScript.unit_name "rec1" 12 "one_piece") = true
  /\ index (PyStr.split "_segment_" (SegmentsScript.unit_name "rec1" 12 "one_piece")) 0
     = Ok "rec1"
  /\ Final.segment_index (SegmentsScript.unit_name "rec1" 12 "one_piece") = Ok 12%Z.
Proof.
  split; [reflexivity|].
  apply (unit_name_read_back "rec1" 12 "one_piece"). reflexivity.
Defined.

(** X5: the timeline order is restored.  In whatever order the units of a
    recording are listed, the sort of [process_video_group] returns them in
    the order of their segments, provided the recording's name has no
    underscore. *)
Theorem timeline_order_restored (base_name : string) (keywords : list string)
    (listed : list string) :
  has_char "_" base_name = false ->
  listed ≡ₚ SegmentsScript.unit_names base_name keywords ->
  sorted_by_key Final.segment_index listed
  = Ok (SegmentsScript.unit_names base_name keywords).
Proof.
  intros Hbase Hperm.
  set (names := SegmentsScript.unit_names base_name keywords) in *.
  assert (Hkey : forall i x, names !! i = Some x ->
                             Final.segment_index x = Ok (Z.of_nat i)).
  { intros i x Hx. apply unit_names_lookup in Hx as (k & _ & ->).
    apply unit_name_index. exact Hbase. }
  assert (Hkeys : forall x, x ∈ listed -> exists n, Final.segment_index x = Ok n).
  { intros x Hx. rewrite Hperm in Hx. apply list_elem_of_lookup in Hx as [i Hi].
    eexists. exact (Hkey i x Hi). }
  destruct (sorted_by_key_spec Final.segment_index listed Hkeys)
    as (out & Hout & Hout_perm & Hord & _).
  rewrite Hout. f_equal.
  apply (StronglySorted_unique_strong
           (fun x y => (key_of Final.segment_index x <= key_of Final.segment_index y)%Z)).
  - intros x1 x2 Hx1 Hx2 H12 H21.
    rewrite Hout_perm, Hperm in Hx1.
    apply list_elem_of_lookup in Hx1 as [i1 Hi1].
    apply list_elem_of_lookup in Hx2 as [i2 Hi2].
    unfold key_of in H12, H21.
    rewrite (Hkey _ _ Hi1), (Hkey _ _ Hi2) in H12, H21.
    assert (i1 = i2) as -> by lia. congruence.
  - apply sorted_from_lookups. exact Hord.
  - apply sorted_from_lookups. intros i j x y Hij Hx Hy.
    unfold key_of. rewrite (Hkey _ _ Hx), (Hkey _ _ Hy). lia.
  - rewrite Hout_perm. exact Hperm.
Qed.

Lemma timeline_order_restored_witness :
  let names := SegmentsScript.unit_names "rec1" ["luffy"; "goku"; "luffy"] in
  let listed := ["rec1_segment_2_luffy.mp4"; "rec1_segment_0_luffy.mp4";
                 "rec1_segment_1_goku.mp4"] in
  has_char "_" "rec1" = false
  /\ sorted_by_key Final.segment_index listed = Ok names.
Proof.
  split; [reflexivity|].
  apply (timeline_order_restored "rec1" ["luffy"; "goku"; "luffy"]
           ["rec1_segment_2_luffy.mp4"; "rec1_segment_0_luffy.mp4";
            "rec1_segment_1_goku.mp4"]); [reflexivity|].
  vm_compute.
  apply (Permutation_trans (l' := ["rec1_segment_0_luffy.mp4"; "rec1_segment_2_luffy.mp4";
                                   "rec1_segment_1_goku.mp4"])).
  - apply perm_swap.
  - apply perm_skip. apply perm_swap.
Defined.

(** X17: one underscore in the name of a recording is enough to stop its
    composition: the third field of its unit names is the word [segment],
    [int] rejects it, and [process_video_group] raises [ValueError] before
    it writes or runs anything. *)
Theorem underscore_in_recording_name (engine : Engine) (a b : string) (i : nat)
    (keyword : string) (others : list string) (w : World) :
  has_char "_" a = false ->
  has_char "_" b = false ->
  Final.segment_index (SegmentsScript.unit_name (a ++ "_" ++ b) i keyword)
  = Raise (ValueError "segment")
  /\ Final.process_video_group engine
       (SegmentsScript.unit_name (a ++ "_" ++ b) i keyword :: others) w
     = (Raise (ValueError "segment"), w).
Proof.
  intros Ha Hb.
  assert (Hindex : Final.segment_index (SegmentsScript.unit_name (a ++ "_" ++ b) i keyword)
                   = Raise (ValueError "segment")).
  { unfold Final.segment_index, SegmentsScript.unit_name.
    rewrite !append_assoc.
    change (a ++ "_" ++ b ++ "_segment_" ++ str_of_nat i ++ "_" ++ keyword ++ ".mp4")%string
      with (a ++ "_" ++ b ++ "_" ++ "segment" ++ "_"
              ++ str_of_nat i ++ "_" ++ keyword ++ ".mp4")%string.
    rewrite (split_first_field "_" "" a _ Ha).
    rewrite (split_first_field "_" "" b _ Hb).
    rewrite (split_first_field "_" "" "segment" _ eq_refl).
    reflexivity. }
  split; [exact Hindex|].
  unfold Final.process_video_group.
  rewrite (bind_ok _ _ w (SegmentsScript.unit_name (a ++ "_" ++ b) i keyword) w)
    by reflexivity.
  destruct (PyStr.split "_segment_" (SegmentsScript.unit_name (a ++ "_" ++ b) i keyword))
    as [|first_field fields] eqn:E.
  { exfalso. exact (split_from_nonempty _ _ _ _ E). }
  rewrite (bind_ok _ _ w first_field w) by reflexivity.
  cbv zeta. apply bind_raise. unfold lift, sorted_by_key.
  cbn [mapM]. rewrite Hindex. reflexivity.
Qed.

Lemma underscore_in_recording_name_witness :
  let name := SegmentsScript.unit_name ("my" ++ "_" ++ "rec") 0 "luffy" in
  has_char "_" "my" = false
  /\ has_char "_" "rec" = false
  /\ Final.segment_index name = Raise (ValueError "segment")
  /\ Final.process_video_group Fixture.ffmpeg_model [name] Fixture.composition_world
     = (Raise (ValueError "segment"), Fixture.composition_world).
Proof.
  split; [reflexivity|]. split; [reflexivity|].
  apply (underscore_in_recording_name Fixture.ffmpeg_model "my" "rec" 0 "luffy" []
           Fixture.composition_world); reflexivity.
Defined.

(** ** Grouping ([final.py]) *)

Section Grouping.

Lemma index_base_of (f : string) : index (PyStr.split "_segment_" f) 0 = Ok (base_of f).
Proof.
  unfold base_of, PyStr.split.
  destruct (PyStr.split_from "_segment_" 0 "" f) eqn:E; [|reflexivity].
  exfalso. exact (split_from_nonempty _ _ _ _ E).
Qed.

Lemma add_to_group_keys base f groups :
  (Final.add_to_group base f groups).*1
  = if bool_decide (base ∈ groups.*1) then groups.*1 else groups.*1 ++ [base].
Proof.
  induction groups as [|[b ms] groups IH]; [reflexivity|].
  cbn [Final.add_to_group]. destruct (String.eqb_spec b base) as [->|Hne].
  - rewrite bool_decide_true by (rewrite fmap_cons; left). reflexivity.
  - rewrite !fmap_cons, IH. cbn [fst].
    destruct (bool_decide (base ∈ groups.*1)) eqn:E.
    + rewrite bool_decide_true; [reflexivity|].
      right. apply bool_decide_eq_true in E. exact E.
    + rewrite bool_decide_false; [reflexivity|].
      apply bool_decide_eq_false in E. rewrite not_elem_of_cons. split; congruence.
Qed.

Lemma add_to_group_members base f groups b :
  members_of b (Final.add_to_group base f groups)
  = if String.eqb b base then members_of base groups ++ [f] else members_of b groups.
Proof.
  induction groups as [|[b0 ms0] groups IH].
  - cbn [Final.add_to_group members_of]. rewrite String.eqb_sym.
    destruct (String.eqb b base); reflexivity.
  - cbn [Final.add_to_group]. destruct (String.eqb_spec b0 base) as [->|Hne].
    + cbn [members_of]. rewrite String.eqb_refl, (String.eqb_sym base b).
      destruct (String.eqb b base); reflexivity.
    + cbn [members_of]. rewrite IH.
      destruct (String.eqb_spec b0 b) as [Hb|Hb];
        destruct (String.eqb_spec b base) as [Hb'|Hb']; try reflexivity.
      * congruence.
      * destruct (String.eqb_spec b0 base); [contradiction | reflexivity].
Qed.

Lemma members_of_lookup groups b ms :
  NoDup groups.*1 -> (b, ms) ∈ groups -> members_of b groups = ms.
Proof.
  induction groups as [|[b0 ms0] groups IH]; intros Hnd Hin; [inversion Hin|].
  rewrite fmap_cons in Hnd. apply NoDup_cons in Hnd as [Hb0 Hnd]. cbn [fst] in Hb0.
  cbn [members_of]. apply elem_of_cons in Hin as [Heq|Hin].
  - injection Heq as -> ->. rewrite String.eqb_refl. reflexivity.
  - destruct (String.eqb_spec b0 b) as [->|]; [|apply IH; assumption].
    exfalso. apply Hb0. apply list_elem_of_fmap. exists (b, ms). split; [reflexivity | exact Hin].
Qed.

Lemma grouped_step seen groups f :
  grouped seen groups ->
  grouped (seen ++ [f])
    (if PyStr.endswith ".mp4" f then Final.add_to_group (base_of f) f groups else groups).
Proof.
  intros (Hnd & Hms & Hkeys).
  destruct (PyStr.endswith ".mp4" f) eqn:Hmp4.
  - assert (Hfilter : forall b, filter (unit_of b) (seen ++ [f])
              = if String.eqb b (base_of f) then filter (unit_of (base_of f)) seen ++ [f]
                else filter (unit_of b) seen).
    { intros b. rewrite filter_app, filter_cons, filter_nil.
      destruct (String.eqb_spec b (base_of f)) as [->|Hne].
      - rewrite decide_True by (split; [exact Hmp4 | reflexivity]). reflexivity.
      - rewrite decide_False by (intros [_ H]; congruence). apply app_nil_r. }
    split; [|split].
    + rewrite add_to_group_keys. case_bool_decide as Hin; [exact Hnd|].
      apply NoDup_app. split; [exact Hnd|]. split; [|apply NoDup_singleton].
      intros x Hx Hx'. apply list_elem_of_singleton in Hx'. subst x. contradiction.
    + intros b. rewrite add_to_group_members, Hfilter, !Hms. reflexivity.
    + intros b. rewrite Hfilter, add_to_group_keys.
      destruct (String.eqb_spec b (base_of f)) as [->|Hne].
      * split; [intros _ H; apply app_eq_nil in H as [_ H]; discriminate|].
        intros _. case_bool_decide as Hin; [exact Hin|]. apply elem_of_app. right. left.
      * rewrite <- Hkeys. case_bool_decide; [reflexivity|].
        rewrite elem_of_app, list_elem_of_singleton. tauto.
  - assert (Hfilter : forall b, filter (unit_of b) (seen ++ [f]) = filter (unit_of b) seen).
    { intros b. rewrite filter_app, filter_cons, filter_nil.
      rewrite decide_False by (intros [H _]; congruence). apply app_nil_r. }
    split; [exact Hnd|]. split; intros b; rewrite Hfilter; [apply Hms | apply Hkeys].
Qed.

Lemma group_names_from seen groups names :
  grouped seen groups ->
  exists groups',
    foldl (fun acc f =>
             groups ← acc;
             if PyStr.endswith ".mp4" f
             then base ← index (PyStr.split "_segment_" f) 0;
                  Ok (Final.add_to_group base f groups)
             else Ok groups) (Ok groups) names = Ok groups'
    /\ grouped (seen ++ names) groups'.
Proof.
  revert seen groups. induction names as [|f names IH]; intros seen groups Hinv.
  - exists groups. rewrite app_nil_r. split; [reflexivity | exact Hinv].
  - cbn [foldl mbind result_bind].
    replace (seen ++ f :: names) with ((seen ++ [f]) ++ names)
      by (rewrite <- app_assoc; reflexivity).
    pose proof (grouped_step seen groups f Hinv) as Hstep.
    destruct (PyStr.endswith ".mp4" f).
    + rewrite index_base_of. cbn [mbind result_bind]. apply IH. exact Hstep.
    + apply IH. exact Hstep.
Qed.

End Grouping.

(** X18: [group_segments] never fails on the names of a listing and files
    every unit exactly once.  The keys of the result are distinct; under
    the key [b] stand, in listing order, exactly the listed names that end
    in [.mp4] and whose text before the first [_segment_] is [b]; no group
    is empty, so [process_video_group] always finds its first unit. *)
Theorem group_names_partition (names : list string) :
  exists groups,
    Final.group_names names = Ok groups
    /\ NoDup groups.*1
    /\ (forall b ms, (b, ms) ∈ groups -> ms <> [] /\ ms = filter (unit_of b) names)
    /\ (forall f, f ∈ names -> PyStr.endswith ".mp4" f = true ->
                   exists ms, (base_of f, ms) ∈ groups /\ f ∈ ms).
Proof.
  assert (Hempty : grouped [] []).
  { split; [constructor|]. split; [reflexivity|].
    intros b. split; [intros H; inversion H | intros H; contradiction]. }
  destruct (group_names_from [] [] names Hempty) as (groups & Heq & Hnd & Hms & Hkeys).
  exists groups. split; [exact Heq|]. split; [exact Hnd|]. cbn [app] in Hms, Hkeys.
  assert (Hgroup : forall b ms, (b, ms) ∈ groups -> ms <> [] /\ ms = filter (unit_of b) names).
  { intros b ms Hin. rewrite <- Hms, (members_of_lookup _ _ _ Hnd Hin).
    split; [|reflexivity].
    rewrite <- (members_of_lookup _ _ _ Hnd Hin), Hms. apply Hkeys.
    apply list_elem_of_fmap. exists (b, ms). split; [reflexivity | exact Hin]. }
  split; [exact Hgroup|].
  intros f Hf Hmp4.
  assert (Hin : f ∈ filter (unit_of (base_of f)) names).
  { apply list_elem_of_filter. split; [split; [exact Hmp4 | reflexivity] | exact Hf]. }
  assert (Hkey : base_of f ∈ groups.*1).
  { apply Hkeys. intros H. rewrite H in Hin. inversion Hin. }
  apply list_elem_of_fmap in Hkey as ([b ms] & Hb & Hbms). cbn [fst] in Hb. subst b.
  exists ms. split; [exact Hbms|].
  destruct (Hgroup _ _ Hbms) as [_ ->]. exact Hin.
Qed.

(** ** The pipeline of [audio.py] *)

Section AudioRuns.

Import AudioMain.

Context {A B : Type}.

Lemma run_bind_ok (m : MA A) (k : A -> MA B) r a r1 :
  m r = (Ok a, r1) -> (m ≫= k) r = k a r1.
Proof. intros H. unfold mbind, MA_bind. rewrite H. reflexivity. Qed.

Lemma run_bind_raise (m : MA A) (k : A -> MA B) r e r1 :
  m r = (Raise e, r1) -> (m ≫= k) r = (Raise e, r1).
Proof. intros H. unfold mbind, MA_bind. rewrite H. reflexivity. Qed.

Lemma run_bind_ok_inv (m : MA A) (k : A -> MA B) r b r' :
  (m ≫= k) r = (Ok b, r') ->
  exists a r1, m r = (Ok a, r1) /\ k a r1 = (Ok b, r').
Proof.
  unfold mbind, MA_bind. destruct (m r) as [[a|e] r1]; [eauto | discriminate].
Qed.

End AudioRuns.

Lemma run_for_each_stops {A} (before after : list A) (x : A)
    (body : A -> AudioMain.MA unit) r r1 e r2 :
  AudioMain.for_each before body r = (Ok tt, r1) ->
  body x r1 = (Raise e, r2) ->
  AudioMain.for_each (before ++ x :: after) body r = (Raise e, r2).
Proof.
  revert r. induction before as [|y before IH]; intros r Hbefore Hx.
  - injection Hbefore as <-. cbn [app AudioMain.for_each].
    apply run_bind_raise. exact Hx.
  - cbn [AudioMain.for_each] in Hbefore.
    apply run_bind_ok_inv in Hbefore as (u & r0 & Hy & Hrest).
    cbn [app AudioMain.for_each]. rewrite (run_bind_ok _ _ _ _ _ Hy).
    apply IH; assumption.
Qed.

(** X12: a recording in which the recogniser finds no segment stops the run
    of [audio.py].  [get_audio_duration] raises [IndexError] on it; [main]
    prints the error and returns [False]; the recordings before it have
    their documents, the recordings after it are not looked at, and the
    world is the one the earlier recordings left. *)
Theorem silent_recording_stops_the_run (recogniser : AudioMain.Recogniser)
    (keywords : list string) (before after : list string) (audio_file : string)
    (r r0 r1 : AudioMain.Run) :
  AudioMain.in_world AudioMain.validate_audio_files r
  = (Ok (before ++ audio_file :: after), r0) ->
  AudioMain.for_each before (AudioMain.process_file recogniser keywords)
    (AudioMain.say (AudioMain.FoundAudioFiles (length (before ++ audio_file :: after))) r0).2
  = (Ok tt, r1) ->
  AudioMain.segment_ends recogniser audio_file = [] ->
  AudioMain.get_audio_duration recogniser audio_file = Raise IndexError
  /\ AudioMain.main recogniser keywords r
     = (Ok false, (AudioMain.say (AudioMain.ErrorProcessingAudio IndexError) r1).2).
Proof.
  intros Hfiles Hbefore Hsilent.
  assert (Hduration : AudioMain.get_audio_duration recogniser audio_file = Raise IndexError).
  { unfold AudioMain.get_audio_duration. rewrite Hsilent. reflexivity. }
  split; [exact Hduration|].
  assert (Hfile : AudioMain.process_file recogniser keywords audio_file r1
                  = (Raise IndexError, r1)).
  { unfold AudioMain.process_file. apply run_bind_raise.
    unfold AudioMain.pure. rewrite Hduration. reflexivity. }
  pose proof (run_for_each_stops before after audio_file _ _ _ _ _ Hbefore Hfile) as Hloop.
  unfold AudioMain.main, AudioMain.try_except.
  rewrite (run_bind_ok _ _ _ _ _ Hfiles).
  rewrite (run_bind_ok _ _ r0 tt
             (AudioMain.say (AudioMain.FoundAudioFiles
                               (length (before ++ audio_file :: after))) r0).2)
    by reflexivity.
  rewrite (run_bind_raise _ _ _ _ _ Hloop). reflexivity.
Qed.

Lemma silent_recording_stops_the_run_witness :
  let r0 := Sample.start in
  let r1 := (AudioMain.process_file Sample.recogniser Sample.keywords "audio/talk.mp4"
               (AudioMain.say (AudioMain.FoundAudioFiles 2) r0).2).2 in
  AudioMain.segment_ends Sample.recogniser "audio/silent.MP4" = []
  /\ AudioMain.get_audio_duration Sample.recogniser "audio/silent.MP4" = Raise IndexError
  /\ AudioMain.main Sample.recogniser Sample.keywords Sample.start
     = (Ok false, (AudioMain.say (AudioMain.ErrorProcessingAudio IndexError) r1).2).
Proof.
  split; [reflexivity|].
  apply (silent_recording_stops_the_run Sample.recogniser Sample.keywords
           ["audio/talk.mp4"] [] "audio/silent.MP4" Sample.start Sample.start);
    vm_compute; reflexivity.
Defined.



(** X13: [main] of [audio.py] never lets an exception through.  It returns
    [True] only after printing the completion line, and [False] only after
    printing the error it caught. *)
Theorem audio_main_exit (recogniser : AudioMain.Recogniser) (keywords : list string)
    (r : AudioMain.Run) :
  exists ok r',
    AudioMain.main recogniser keywords r = (Ok ok, r')
    /\ if (ok : bool)
       then last (AudioMain.printed_lines r') = Some AudioMain.Completed
       else exists e, last (AudioMain.printed_lines r')
                      = Some (AudioMain.ErrorProcessingAudio e).
Proof.
  unfold AudioMain.main, AudioMain.try_except.
  match goal with |- context [match ?body r with _ => _ end] => destruct (body r) as [[ok|e] r'] eqn:E end.
  - exists ok, r'. split; [reflexivity|].
    apply run_bind_ok_inv in E as (audio_files & r1 & _ & E).
    apply run_bind_ok_inv in E as (u1 & r2 & _ & E).
    apply run_bind_ok_inv in E as (u2 & r3 & _ & E).
    apply run_bind_ok_inv in E as (u3 & r4 & Hsay & E).
    injection E as <- <-. injection Hsay as _ <-.
    cbn [AudioMain.printed_lines]. apply last_snoc.
  - eexists false, _. split; [reflexivity|]. exists e.
    cbn [AudioMain.printed_lines snd]. apply last_snoc.
Qed.

Lemma has_char_append (c : ascii) (a b : string) :
  has_char c (a ++ b) = has_char c a || has_char c b.
Proof.
  induction a as [|x a IH]; [reflexivity|].
  rewrite append_cons. cbn [has_char]. rewrite IH, orb_assoc. reflexivity.
Qed.

(** X14: the recording's name survives the hand-over from [audio.py] to
    [segments.py].  When the base name of an audio file holds no slash, dot
    or underscore, the base name [process_segments] derives from the path
    of the document [audio.py] wrote for it is that same base name. *)
Theorem base_name_handed_over (audio_file : string) :
  let base_name := Os.splitext_root (Os.basename audio_file) in
  has_char "/" base_name = false ->
  has_char "." base_name = false ->
  has_char "_" base_name = false ->
  base_name_of (AudioMain.output_file_of audio_file) = base_name.
Proof.
  intros b Hslash Hdot Hunder.
  unfold base_name_of, AudioMain.output_file_of. fold b.
  assert (Hpath : Os.path_join AudioMain.OUTPUT_DIR (b ++ "_segments.json")
                  = ("temp_transcriptions" ++ "/" ++ b ++ "_segments.json")%string).
  { unfold Os.path_join, PyStr.startswith.
    destruct b as [|x b']; [reflexivity|].
    rewrite append_cons. cbn [has_char] in Hslash.
    apply orb_false_iff in Hslash as [Hx _].
    rewrite (prefix_other_head _ _ _ _ Hx). reflexivity. }
  rewrite Hpath.
  assert (Hname : Os.basename ("temp_transcriptions" ++ "/" ++ b ++ "_segments.json")
                  = (b ++ "_segments.json")%string).
  { unfold Os.basename.
    rewrite (split_first_field "/" "" "temp_transcriptions" _ eq_refl).
    rewrite (split_single_field "/" "").
    - reflexivity.
    - rewrite has_char_append, Hslash. reflexivity. }
  rewrite Hname.
  assert (Hroot : Os.splitext_root (b ++ "_segments.json") = (b ++ "_segments")%string).
  { unfold Os.splitext_root.
    change (b ++ "_segments.json")%string with (b ++ "_segments" ++ "." ++ "json")%string.
    rewrite <- append_assoc.
    rewrite (split_first_field "." "" (b ++ "_segments") "json")
      by (rewrite has_char_append, Hdot; reflexivity).
    rewrite (split_single_field "." "" "json" eq_refl).
    cbn [removelast forallb PyStr.join String.concat].
    destruct b; reflexivity. }
  rewrite Hroot. unfold PyStr.replace.
  rewrite <- (append_empty (b ++ "_segments")), append_assoc.
  rewrite (split_first_field "_" "segments" b "" Hunder).
  cbn [PyStr.split PyStr.split_from PyStr.rev PyStr.rev_onto PyStr.join String.concat].
  rewrite append_nil. apply append_empty.
Qed.

Lemma base_name_handed_over_witness :
  has_char "/" "talk" = false
  /\ has_char "." "talk" = false
  /\ has_char "_" "talk" = false
  /\ base_name_of (AudioMain.output_file_of "audio/talk.mp4") = "talk".
Proof.
  split; [reflexivity|]. split; [reflexivity|]. split; [reflexivity|].
  apply (base_name_handed_over "audio/talk.mp4"); reflexivity.
Defined.

(** ** More on segment assembly ([draft/segments.py]) *)



(** X20: when [create_segment] returns normally, its two temporaries, the
    clip list and the untrimmed concatenation, are gone, whatever the
    engine did. *)
Theorem create_segment_releases_temporaries (engine : Engine) (clips : list string)
    (duration : float) (output_path : string) (w w' : World) :
  Segments.create_segment engine clips duration output_path w = (Ok tt, w') ->
  Os.present Segments.list_file w' = false /\ Os.present Segments.temp_output w' = false.
Proof.
  unfold Segments.create_segment. intros H.
  apply bind_ok_inv in H as (u1 & w1 & _ & H).
  apply bind_ok_inv in H as (u2 & w2 & _ & H).
  apply bind_ok_inv in H as (u3 & w3 & _ & H).
  apply bind_ok_inv in H as ([] & w4 & Hlist & Htemp).
  split.
  - apply (remove_keeps_absent _ _ _ _ Htemp). exact (removed_is_absent _ _ _ Hlist).
  - exact (removed_is_absent _ _ _ Htemp).
Qed.

Lemma create_segment_releases_temporaries_witness :
  let w := (Segments.validate_environment Fixture.assembly_world).2 in
  let r := Segments.create_segment Fixture.ffmpeg_model ["clips/goku/g1.mp4"] 5
             "segments/out.mp4" w in
  r = (Ok tt, r.2)
  /\ Os.present Segments.list_file r.2 = false
  /\ Os.present Segments.temp_output r.2 = false.
Proof.
  split; [vm_compute; reflexivity|].
  apply (create_segment_releases_temporaries Fixture.ffmpeg_model ["clips/goku/g1.mp4"] 5
           "segments/out.mp4" (Segments.validate_environment Fixture.assembly_world).2).
  vm_compute. reflexivity.
Defined.

(** The lookup changes nothing and sees the nodes and the working
    directory only. *)
Lemma get_clips_same (keyword : string) (w w1 : World) :
  files w1 = files w -> cwd w1 = cwd w ->
  Segments.get_clips_for_keyword keyword w1
  = ((Segments.get_clips_for_keyword keyword w).1, w1).
Proof.
  intros Hf Hc. unfold Segments.get_clips_for_keyword. cbv zeta.
  set (keyword_dir := Os.path_join Segments.CLIPS_DIR keyword).
  unfold mbind at 1 3, M_bind.
  rewrite (path_exists_same keyword_dir w w1 Hf Hc).
  destruct (Os.path_exists keyword_dir w) as [[[]|e] w0] eqn:E;
    unfold Os.path_exists in E; injection E as E <-; cbn [fst negb]; try reflexivity.
  unfold mbind, M_bind. rewrite (listdir_same keyword_dir w w1 Hf Hc).
  rewrite (listdir_unchanged keyword_dir w).
  destruct (Os.listdir keyword_dir w).1 as [names|e']; cbn [fst]; [|reflexivity].
  destruct (map _ _); reflexivity.
Qed.

Lemma skipped_items (engine : Engine) (base_name : string) (error_of : Audio.Segment -> exn)
    (items : list (nat * Audio.Segment)) (w w1 : World) :
  files w1 = files w -> cwd w1 = cwd w ->
  (forall item, item ∈ items ->
     (Segments.get_clips_for_keyword (Audio.Folder item.2) w).1 = Raise (error_of item.2)) ->
  for_each items (Segments.process_segment engine base_name) w1
  = (Ok tt,
     {| files := files w1; cwd := cwd w1; ffmpeg_on_path := ffmpeg_on_path w1;
        stdout := stdout w1
                  ++ map (fun item : nat * Audio.Segment =>
                            SkippingSegment item.1 base_name (error_of item.2)) items |}).
Proof.
  revert w1. induction items as [|[i segment] items IH]; intros w1 Hf Hc Hraise.
  - cbn [for_each map]. rewrite app_nil_r. destruct w1; reflexivity.
  - rewrite for_each_cons.
    assert (Hlookup : Segments.get_clips_for_keyword (Audio.Folder segment) w1
                      = (Raise (error_of segment), w1)).
    { rewrite (get_clips_same _ w w1 Hf Hc).
      pose proof (Hraise (i, segment) ltac:(left)) as Hr. cbn [snd] in Hr.
      rewrite Hr. reflexivity. }
    rewrite (bind_ok _ _ _ _ _ (process_segment_skips engine base_name i segment w1 w1 _ Hlookup)).
    rewrite IH.
    + cbn [Os.print snd files cwd ffmpeg_on_path stdout map fst].
      rewrite <- app_assoc. reflexivity.
    + exact Hf.
    + exact Hc.
    + intros item Hitem. apply Hraise. right. exact Hitem.
Qed.

(** X21: a timeline for none of whose keywords the clip-pool lookup
    succeeds is skipped as a whole: [process_segments] returns normally,
    prints one skip line per segment, in order, each with the error of the
    lookup, and leaves every file as it was; the engine is not run, so the
    outcome is the same for every engine.  An empty timeline is the case
    without lines. *)
Theorem timeline_without_pools (engine : Engine) (json_path : string) (w : World)
    (segments_data : list Audio.Segment) (error_of : Audio.Segment -> exn) :
  Os.load_json json_path w = (Ok segments_data, w) ->
  (forall segment, segment ∈ segments_data ->
     (Segments.get_clips_for_keyword (Audio.Folder segment) w).1
     = Raise (error_of segment)) ->
  Segments.process_segments engine json_path w
  = (Ok tt,
     {| files := files w; cwd := cwd w; ffmpeg_on_path := ffmpeg_on_path w;
        stdout := stdout w
                  ++ map (fun item : nat * Audio.Segment =>
                            SkippingSegment item.1 (base_name_of json_path)
                              (error_of item.2))
                       (enumerate segments_data) |}).
Proof.
  intros Hload Hraise. unfold Segments.process_segments. cbv zeta.
  rewrite (bind_ok _ _ _ _ _ Hload).
  apply (skipped_items engine _ error_of _ w w); [reflexivity | reflexivity|].
  intros item Hitem.
  apply list_elem_of_lookup in Hitem as [i Hi].
  apply enumerate_lookup in Hi as [_ Hi].
  apply Hraise. eapply list_elem_of_lookup_2. exact Hi.
Qed.

Lemma timeline_without_pools_witness :
  let w := Fixture.pool_world in
  let error_of (segment : Audio.Segment) :=
    if String.eqb (Audio.Folder segment) "readme"
    then NotADirectoryError "clips/readme"
    else FileNotFoundError (Audio.Folder segment) in
  Segments.process_segments (Fixture.failing_on "ffmpeg" Fixture.ffmpeg_model)
    "temp_transcriptions/a_segments.json" w
  = (Ok tt,
     {| files := files w; cwd := cwd w; ffmpeg_on_path := ffmpeg_on_path w;
        stdout := stdout w
                  ++ map (fun item : nat * Audio.Segment =>
                            SkippingSegment item.1
                              (base_name_of "temp_transcriptions/a_segments.json")
                              (error_of item.2))
                       (enumerate [Fixture.seg "naruto" 0 3; Fixture.seg "readme" 3 8]) |}).
Proof.
  apply (timeline_without_pools (Fixture.failing_on "ffmpeg" Fixture.ffmpeg_model)
           "temp_transcriptions/a_segments.json" Fixture.pool_world
           [Fixture.seg "naruto" 0 3; Fixture.seg "readme" 3 8]).
  - vm_compute. reflexivity.
  - intros segment Hsegment.
    apply elem_of_cons in Hsegment as [->|Hsegment]; [vm_compute; reflexivity|].
    apply elem_of_cons in Hsegment as [->|Hsegment]; [vm_compute; reflexivity|].
    apply elem_of_nil in Hsegment. destruct Hsegment.
Defined.

Lemma segments_main_returns (engine : Engine) (w : World) :
  exists w', Segments.main engine w = (Ok tt, w').
Proof.
  unfold Segments.main, try_except.
  match goal with
  | |- context [match ?body w with _ => _ end] => destruct (body w) as [[[]|e] w']
  end; eexists; reflexivity.
Qed.

(** X22: [segments.py] looks for the engine before its [main] and outside
    its handler: run as a script it ends with an uncaught exception, and
    has done nothing, exactly when [ffmpeg] is not on the path; otherwise
    it ends normally whatever happens in [main]. *)
Theorem segments_script_outcome (engine : Engine) (w : World) :
  if ffmpeg_on_path w
  then exists w', SegmentsScript.script engine w = (Ok tt, w')
  else SegmentsScript.script engine w
       = (Raise (Exception "ffmpeg is not installed. Please install ffmpeg first."), w).
Proof.
  unfold SegmentsScript.script.
  rewrite (bind_ok _ _ w (negb (ffmpeg_on_path w)) w) by reflexivity.
  destruct (ffmpeg_on_path w); cbn [negb]; [apply segments_main_returns | reflexivity].
Qed.

Lemma validate_environment_outcome (w : World) :
  (exists e, Final.validate_environment w = (Raise e, w))
  \/ Final.validate_environment w = (Ok tt, w)
  \/ Final.validate_environment w
     = (Ok tt, with_files (files w ++ [(cwd w ++ [Final.OUTPUT_DIR], Directory)]) w).
Proof.
  unfold Final.validate_environment.
  rewrite (bind_ok _ _ w (Os.present Final.SEGMENTS_DIR w) w) by reflexivity.
  destruct (Os.present Final.SEGMENTS_DIR w); cbn [negb];
    [|left; eexists; reflexivity].
  rewrite (bind_ok _ _ w (Os.present Final.AUDIO_DIR w) w) by reflexivity.
  destruct (Os.present Final.AUDIO_DIR w); cbn [negb];
    [|left; eexists; reflexivity].
  rewrite (bind_ok _ _ w (Os.present Final.MUSIC_PATH w) w) by reflexivity.
  destruct (Os.present Final.MUSIC_PATH w); cbn [negb];
    [|left; eexists; reflexivity].
  destruct (Os.makedirs Final.OUTPUT_DIR w) as [r w'] eqn:E.
  destruct (makedirs_plain Final.OUTPUT_DIR w w' r eq_refl E)
    as [(e & -> & ->)|[-> [->| ->]]].
  - left. exists e. reflexivity.
  - right. left. reflexivity.
  - right. right. reflexivity.
Qed.

(** X23: without [ffmpeg] on the path, [final.py] composes nothing.  [main]
    prints one error and returns; no engine is run (the outcome is the same
    for every engine) and the only change it can have made is to create
    the output directory, which it does before it looks for the engine. *)
Theorem final_main_without_engine (engine : Engine) (w : World) :
  ffmpeg_on_path w = false ->
  exists e w',
    Final.main engine w = (Ok tt, (Os.print (ErrorLine e) w').2)
    /\ (w' = w
        \/ w' = with_files (files w ++ [(cwd w ++ [Final.OUTPUT_DIR], Directory)]) w).
Proof.
  intros Hmissing. unfold Final.main.
  destruct (validate_environment_outcome w) as [[e He]|[Hv|Hv]].
  - exists e, w. split; [|left; reflexivity].
    rewrite (try_except_raise _ _ _ e w); [reflexivity|].
    apply bind_raise. exact He.
  - exists (Exception "ffmpeg is not installed"), w. split; [|left; reflexivity].
    rewrite (try_except_raise _ _ _ (Exception "ffmpeg is not installed") w);
      [reflexivity|].
    rewrite (bind_ok _ _ _ _ _ Hv).
    rewrite (bind_ok _ _ w true w)
      by (unfold Os.ffmpeg_missing; rewrite Hmissing; reflexivity).
    reflexivity.
  - eexists (Exception "ffmpeg is not installed"), _. split; [|right; reflexivity].
    rewrite (try_except_raise _ _ _ (Exception "ffmpeg is not installed")
               (with_files (files w ++ [(cwd w ++ [Final.OUTPUT_DIR], Directory)]) w));
      [reflexivity|].
    rewrite (bind_ok _ _ _ _ _ Hv).
    rewrite (bind_ok _ _ _ true
               (with_files (files w ++ [(cwd w ++ [Final.OUTPUT_DIR], Directory)]) w))
      by (unfold Os.ffmpeg_missing; cbn [with_files ffmpeg_on_path];
          rewrite Hmissing; reflexivity).
    reflexivity.
Qed.

Lemma final_main_without_engine_witness :
  let w := {| files := files Fixture.composition_world;
              cwd := cwd Fixture.composition_world;
              ffmpeg_on_path := false;
              stdout := [] |} in
  ffmpeg_on_path w = false
  /\ exists e w',
       Final.main Fixture.ffmpeg_model w = (Ok tt, (Os.print (ErrorLine e) w').2)
       /\ (w' = w
           \/ w' = with_files (files w ++ [(cwd w ++ [Final.OUTPUT_DIR], Directory)]) w).
Proof.
  split; [reflexivity|].
  apply (final_main_without_engine Fixture.ffmpeg_model
           {| files := files Fixture.composition_world;
              cwd := cwd Fixture.composition_world;
              ffmpeg_on_path := false;
              stdout := [] |}).
  reflexivity.
Defined.

(** ** Titles and output names *)

Lemma safe_char_is_safe (c : ascii) : is_safe (Final.safe_char c) = true.
Proof. destruct c as [[] [] [] [] [] [] [] []]; vm_compute; reflexivity. Qed.

Lemma safe_name_chars (s : string) :
  all_chars is_safe (PyStr.map_chars Final.safe_char s) = true.
Proof.
  induction s as [|x s IH]; [reflexivity|].
  cbn [PyStr.map_chars all_chars]. rewrite safe_char_is_safe, IH. reflexivity.
Qed.

Lemma all_chars_append (p : ascii -> bool) (a b : string) :
  all_chars p (a ++ b) = all_chars p a && all_chars p b.
Proof.
  induction a as [|x a IH]; [reflexivity|].
  rewrite append_cons. cbn [all_chars]. rewrite IH, andb_assoc. reflexivity.
Qed.

(** X24: the final artifact is always a direct child of the output
    directory.  Whatever the names of the units, every character of the
    file name [process_video_group] builds from the title is a letter, a
    digit, a space or one of [-], [_], [#]; the output path is
    [final_videos/] followed by that name and [.mp4], and its base name
    holds no slash. *)
Theorem output_file_is_safe (segment_group : list string) :
  let safe_title := PyStr.map_chars Final.safe_char (title_of_group segment_group) in
  all_chars is_safe safe_title = true
  /\ output_file_of_group segment_group = ("final_videos/" ++ safe_title ++ ".mp4")%string
  /\ Os.basename (output_file_of_group segment_group) = (safe_title ++ ".mp4")%string.
Proof.
  intros safe_title.
  assert (Hsafe : all_chars is_safe safe_title = true) by apply safe_name_chars.
  assert (Hslash : has_char "/" (safe_title ++ ".mp4") = false).
  { rewrite has_char_append, (all_chars_has_char is_safe "/" _ eq_refl Hsafe). reflexivity. }
  assert (Hpath : output_file_of_group segment_group
                  = ("final_videos/" ++ safe_title ++ ".mp4")%string).
  { unfold output_file_of_group, Os.path_join, PyStr.startswith. fold safe_title.
    destruct safe_title as [|x t]; [reflexivity|].
    rewrite append_cons in *. cbn [has_char] in Hslash.
    apply orb_false_iff in Hslash as [Hx _].
    rewrite (prefix_other_head _ _ _ _ Hx). reflexivity. }
  split; [exact Hsafe|]. split; [exact Hpath|].
  rewrite Hpath. unfold Os.basename.
  change ("final_videos/" ++ safe_title ++ ".mp4")%string
    with ("final_videos" ++ "/" ++ safe_title ++ ".mp4")%string.
  rewrite (split_first_field "/" "" "final_videos" _ eq_refl).
  rewrite (split_single_field "/" "" _ Hslash). reflexivity.
Qed.

Lemma process_video_group_uses_output_file (engine : Engine) (segment_group : list string)
    (w w' : World) :
  Final.process_video_group engine segment_group w = (Ok tt, w') ->
  exists lines,
    stdout w' = lines ++ [CreatedFinalVideo (output_file_of_group segment_group);
                          TitleLine (title_of_group segment_group)].
Proof.
  unfold Final.process_video_group. intros H.
  apply bind_ok_inv in H as (first & w1 & _ & H).
  apply bind_ok_inv in H as (base_name & w2 & _ & H).
  cbv zeta in H.
  apply bind_ok_inv in H as (segments & w3 & _ & H).
  apply bind_ok_inv in H as (audio_file & w4 & _ & H).
  apply bind_ok_inv in H as (u5 & w5 & _ & H).
  apply bind_ok_inv in H as (u6 & w6 & _ & H).
  apply bind_ok_inv in H as (u7 & w7 & _ & H).
  apply bind_ok_inv in H as (u8 & w8 & Hcreated & Htitle).
  injection Hcreated as _ <-. injection Htitle as <-.
  exists (stdout w7). cbn [stdout]. rewrite <- app_assoc. reflexivity.
Qed.

Section GroupEntries.

Import SegmentsScript.

(** The entry [get_segment_entries] reads from a unit name does not depend
    on the recording or the index. *)
Lemma entries_of_unit_name (base_name : string) (i : nat) (keyword : string) :
  has_char "_" base_name = false ->
  Final.get_segment_entries [unit_name base_name i keyword]
  = match PyStr.split "_" (keyword ++ ".mp4") with
    | field :: _ => [ {| Ahmi.Folder := PyStr.replace ".mp4" "" field;
                         Ahmi.starttime := 0; Ahmi.endtime := 0 |} ]
    | [] => []
    end.
Proof.
  intros Hbase. unfold Final.get_segment_entries. cbn [flat_map].
  rewrite (unit_name_fields base_name Hbase). rewrite app_nil_r. reflexivity.
Qed.

Lemma entries_of_group_app (g1 g2 : list string) :
  Final.get_segment_entries (g1 ++ g2)
  = Final.get_segment_entries g1 ++ Final.get_segment_entries g2.
Proof. unfold Final.get_segment_entries. apply flat_map_app. Qed.

Lemma entries_of_items (base_name : string) (items : list (nat * string)) :
  has_char "_" base_name = false ->
  Final.get_segment_entries
    (map (fun item : nat * string => unit_name base_name item.1 item.2) items)
  = flat_map (fun keyword : string =>
                match PyStr.split "_" (keyword ++ ".mp4") with
                | field :: _ => [ {| Ahmi.Folder := PyStr.replace ".mp4" "" field;
                                     Ahmi.starttime := 0; Ahmi.endtime := 0 |} ]
                | [] => []
                end) items.*2.
Proof.
  intros Hbase. induction items as [|[i k] items IH]; [reflexivity|].
  cbn [map flat_map fst snd fmap list_fmap].
  change (unit_name base_name i k :: ?l) with ([unit_name base_name i k] ++ l).
  rewrite (entries_of_group_app [unit_name base_name i k]).
  rewrite (entries_of_unit_name base_name i k Hbase), IH. reflexivity.
Qed.

End GroupEntries.

(** X25: the title of a group, and with it the name of its output file, is
    read from the unit names as they are listed, before they are sorted,
    and from their keywords alone.  Whatever the indices, two recordings
    whose names have no underscore and whose units are listed with the same
    keywords in the same order get the same title and the same output
    path. *)
Theorem same_keywords_same_output (base1 base2 : string)
    (listed1 listed2 : list (nat * string)) :
  has_char "_" base1 = false ->
  has_char "_" base2 = false ->
  listed1.*2 = listed2.*2 ->
  let group (base : string) (listed : list (nat * string)) :=
    map (fun item : nat * string => SegmentsScript.unit_name base item.1 item.2) listed in
  title_of_group (group base1 listed1) = title_of_group (group base2 listed2)
  /\ output_file_of_group (group base1 listed1) = output_file_of_group (group base2 listed2).
Proof.
  intros H1 H2 Hkeywords group.
  assert (Htitle : title_of_group (group base1 listed1)
                   = title_of_group (group base2 listed2)).
  { unfold title_of_group, group.
    rewrite (entries_of_items base1 _ H1), (entries_of_items base2 _ H2).
    rewrite Hkeywords. reflexivity. }
  split; [exact Htitle|]. unfold output_file_of_group. rewrite Htitle. reflexivity.
Qed.

Lemma same_keywords_same_output_witness :
  let group (base : string) (listed : list (nat * string)) :=
    map (fun item : nat * string => SegmentsScript.unit_name base item.1 item.2) listed in
  has_char "_" "a" = false
  /\ has_char "_" "b" = false
  /\ [(1, "goku"); (0, "luffy")].*2 = [(0, "goku"); (1, "luffy")].*2
  /\ title_of_group (group "a" [(1, "goku"); (0, "luffy")])
     = "goku vs luffy #animebattle #dbz #goku #onepiece #luffy"
  /\ title_of_group (group "a" [(1, "goku"); (0, "luffy")])
     = title_of_group (group "b" [(0, "goku"); (1, "luffy")])
  /\ output_file_of_group (group "a" [(1, "goku"); (0, "luffy")])
     = output_file_of_group (group "b" [(0, "goku"); (1, "luffy")]).
Proof.
  split; [reflexivity|]. split; [reflexivity|]. split; [reflexivity|].
  split; [vm_compute; reflexivity|].
  apply (same_keywords_same_output "a" "b" [(1, "goku"); (0, "luffy")]
           [(0, "goku"); (1, "luffy")]); reflexivity.
Defined.

Section TitleFacts.

Import Ahmi.

Lemma visit_seen (state : list string * gset string) (e : Entry) :
  PyStr.lower (Folder e) ∈ state.1 -> visit state e = state.
Proof.
  intros Hin. destruct state as [seen tags]. unfold visit.
  rewrite (bool_decide_true _ Hin). reflexivity.
Qed.

Lemma visit_grows (state : list string * gset string) (e : Entry) (k : string) :
  k ∈ state.1 -> k ∈ (visit state e).1.
Proof.
  intros Hin. destruct state as [seen tags]. unfold visit.
  case_bool_decide; [exact Hin|].
  assert (Hk : k ∈ seen ++ [PyStr.lower (Folder e)]) by (apply elem_of_app; left; exact Hin).
  destruct (associations !! PyStr.lower (Folder e)) as [[|x a]|]; exact Hk.
Qed.

Lemma visit_records (state : list string * gset string) (e : Entry) :
  PyStr.lower (Folder e) ∈ (visit state e).1.
Proof.
  destruct state as [seen tags]. unfold visit.
  case_bool_decide as Hin; [exact Hin|].
  assert (Hk : PyStr.lower (Folder e) ∈ seen ++ [PyStr.lower (Folder e)])
    by (apply elem_of_app; right; left).
  destruct (associations !! PyStr.lower (Folder e)) as [[|x a]|]; exact Hk.
Qed.

Lemma fold_visit_grows (entries : list Entry) (state : list string * gset string) (k : string) :
  k ∈ state.1 -> k ∈ (foldl visit state entries).1.
Proof.
  revert state. induction entries as [|e entries IH]; intros state Hin; [exact Hin|].
  cbn [foldl]. apply IH, visit_grows, Hin.
Qed.

Lemma fold_visit_records (entries : list Entry) (state : list string * gset string) (e : Entry) :
  e ∈ entries -> PyStr.lower (Folder e) ∈ (foldl visit state entries).1.
Proof.
  revert state. induction entries as [|e0 entries IH]; intros state Hin; [inversion Hin|].
  cbn [foldl]. apply elem_of_cons in Hin as [->|Hin].
  - apply fold_visit_grows, visit_records.
  - apply IH, Hin.
Qed.

End TitleFacts.

(** X26: a keyword counts once in a title: adding an entry whose keyword,
    in lower case, is already among the entries leaves the title as it
    is. *)
Theorem title_ignores_repeats (entries : list Ahmi.Entry) (e e0 : Ahmi.Entry)
    (for_filename : bool) :
  e0 ∈ entries ->
  PyStr.lower (Ahmi.Folder e) = PyStr.lower (Ahmi.Folder e0) ->
  Ahmi.create_title (entries ++ [e]) for_filename = Ahmi.create_title entries for_filename.
Proof.
  intros Hin Hsame. unfold Ahmi.create_title.
  rewrite foldl_app. cbn [foldl].
  rewrite visit_seen; [reflexivity|].
  rewrite Hsame. apply fold_visit_records, Hin.
Qed.

Lemma title_ignores_repeats_witness :
  let entries := [Fixture.entry "luffy"; Fixture.entry "goku"] in
  let shouted := {| Ahmi.Folder := "LUFFY"; Ahmi.starttime := 3; Ahmi.endtime := 4 |} in
  Ahmi.create_title (entries ++ [shouted]) false = Ahmi.create_title entries false.
Proof.
  apply (title_ignores_repeats [Fixture.entry "luffy"; Fixture.entry "goku"]
           {| Ahmi.Folder := "LUFFY"; Ahmi.starttime := 3; Ahmi.endtime := 4 |}
           (Fixture.entry "luffy") false).
  - left.
  - reflexivity.
Defined.

Section ReplaceFacts.

Import PyStr.

Variable c : ascii.

Lemma has_char_rev_onto (s acc : string) :
  has_char c (rev_onto s acc) = has_char c s || has_char c acc.
Proof.
  revert acc. induction s as [|x s IH]; intros acc; [reflexivity|].
  cbn [rev_onto has_char]. rewrite IH. cbn [has_char].
  destruct (Ascii.eqb x c), (has_char c s), (has_char c acc); reflexivity.
Qed.

Lemma has_char_rev (s : string) : has_char c (rev s) = has_char c s.
Proof. unfold rev. rewrite has_char_rev_onto. apply orb_false_r. Qed.

(** No field of a split at [c] holds [c]. *)
Lemma split_from_fields (s cur : string) :
  has_char c cur = false ->
  Forall (fun field => has_char c field = false) (split_from (String c "") 0 cur s).
Proof.
  revert cur. induction s as [|x s IH]; intros cur Hcur.
  - cbn [split_from]. constructor; [|constructor]. rewrite has_char_rev. exact Hcur.
  - cbn [split_from String.prefix].
    destruct (ascii_dec c x) as [<-|Hne].
    + replace (String.prefix "" s) with true by (destruct s; reflexivity).
      constructor; [rewrite has_char_rev; exact Hcur|].
      cbn [String.length Nat.sub]. apply IH. reflexivity.
    + apply IH. cbn [has_char]. rewrite Hcur, orb_false_r.
      destruct (Ascii.eqb_spec x c); [congruence | reflexivity].
Qed.

Lemma has_char_join (new : string) (fields : list string) :
  has_char c new = false ->
  Forall (fun field => has_char c field = false) fields ->
  has_char c (join new fields) = false.
Proof.
  intros Hnew. unfold join. induction 1 as [|f fields Hf Hfields IH]; [reflexivity|].
  cbn [String.concat]. destruct fields as [|g fields]; [exact Hf|].
  rewrite !has_char_append, Hf, Hnew, IH. reflexivity.
Qed.

Lemma replace_removes (new s : string) :
  has_char c new = false -> has_char c (replace (String c "") new s) = false.
Proof.
  intros Hnew. unfold replace, split. apply has_char_join; [exact Hnew|].
  apply split_from_fields. reflexivity.
Qed.

End ReplaceFacts.

(** X27: a title made for a file name holds no underscore: with
    [for_filename] set, every underscore of the title, whether it comes
    from a keyword or from a tag, has become [#]. *)
Theorem filename_title_has_no_underscore (entries : list Ahmi.Entry) :
  has_char "_" (Ahmi.create_title entries true) = false.
Proof.
  unfold Ahmi.create_title.
  destruct (foldl Ahmi.visit ([], {["#animebattle"]}) entries) as [seen tags].
  apply (replace_removes "_" "#"). reflexivity.
Qed.

(** ** More on words and segments ([audio.py]) *)

Section CaseFacts.

Import PyStr.

Variables (p : ascii -> bool) (f : ascii -> ascii).
Hypothesis p_f : forall c, p (f c) = p c.

Lemma lstrip_map_chars (s : string) : lstrip p (map_chars f s) = map_chars f (lstrip p s).
Proof.
  induction s as [|x s IH]; [reflexivity|].
  cbn [map_chars lstrip]. rewrite p_f. destruct (p x); [exact IH | reflexivity].
Qed.

Lemma rstrip_map_chars (s : string) : rstrip p (map_chars f s) = map_chars f (rstrip p s).
Proof.
  induction s as [|x s IH]; [reflexivity|].
  cbn [map_chars rstrip]. rewrite IH, p_f.
  destruct (rstrip p s) as [|y r]; [destruct (p x)|]; reflexivity.
Qed.

End CaseFacts.

Lemma normalize_word_lower (w : string) :
  Audio.normalize_word (PyStr.lower w) = Audio.normalize_word w.
Proof.
  unfold Audio.normalize_word, PyStr.strip, PyStr.lower.
  rewrite (lstrip_map_chars _ _ isspace_lower_char).
  rewrite (rstrip_map_chars _ _ isspace_lower_char).
  rewrite (rstrip_map_chars _ _ is_punctuation_lower_char).
  apply map_chars_idempotent, lower_char_idempotent.
Qed.

(** X8: words are matched without regard to letter case: two words that are
    equal in lower case normalize to the same word. *)
Theorem normalize_word_ignores_case (w1 w2 : string) :
  PyStr.lower w1 = PyStr.lower w2 -> Audio.normalize_word w1 = Audio.normalize_word w2.
Proof.
  intros H. rewrite <- (normalize_word_lower w1), <- (normalize_word_lower w2), H.
  reflexivity.
Qed.

Lemma normalize_word_ignores_case_witness :
  PyStr.lower " LUFFY!" = PyStr.lower " luffy!"
  /\ Audio.normalize_word " LUFFY!" = Audio.normalize_word " luffy!".
Proof.
  split; [reflexivity|].
  apply (normalize_word_ignores_case " LUFFY!" " luffy!"). reflexivity.
Defined.




(** X1: the derivation returns no segment exactly when no transcribed word
    normalizes to a keyword. *)
Theorem no_segment_iff_no_keyword (segments : list (list Audio.Word))
    (keywords : list string) (d : float) :
  Audio.process_audio_file segments keywords d = Ok []
  <-> forall words w, words ∈ segments -> w ∈ words ->
                      Audio.normalize_word (Audio.word w) ∉ keywords.
Proof.
  unfold Audio.process_audio_file.
  destruct (process_timestamps_folders (Audio.raw_timestamps_of segments keywords) d)
    as (segs & Heq & Hlen & _).
  rewrite Heq. split.
  - intros [= ->] words w Hwords Hw Hk.
    assert (Hin : {| Audio.raw_Folder := Audio.normalize_word (Audio.word w);
                     Audio.raw_starttime := Audio.start w |}
                  ∈ Audio.raw_timestamps_of segments keywords).
    { unfold Audio.raw_timestamps_of. rewrite list_elem_of_In, in_flat_map.
      exists words. split; [apply list_elem_of_In; exact Hwords|].
      apply in_flat_map. exists w. split; [apply list_elem_of_In; exact Hw|].
      cbv zeta. rewrite (bool_decide_true _ Hk). left. reflexivity. }
    destruct (Audio.raw_timestamps_of segments keywords); [inversion Hin | discriminate].
  - intros Hnone.
    assert (Hraw : Audio.raw_timestamps_of segments keywords = []).
    { destruct (Audio.raw_timestamps_of segments keywords) as [|r raw] eqn:E; [reflexivity|].
      exfalso.
      assert (Hin : r ∈ Audio.raw_timestamps_of segments keywords) by (rewrite E; left).
      unfold Audio.raw_timestamps_of in Hin. rewrite list_elem_of_In, in_flat_map in Hin.
      destruct Hin as (words & Hwords & Hr). apply in_flat_map in Hr as (w & Hw & Hr).
      cbv zeta in Hr. case_bool_decide as Hk; [|destruct Hr].
      apply (Hnone words w); [apply list_elem_of_In; exact Hwords
                             | apply list_elem_of_In; exact Hw | exact Hk]. }
    rewrite Hraw in Hlen. destruct segs; [reflexivity | discriminate].
Qed.

Lemma end_times_ordered (raw : list Audio.RawTimestamp) (d : float) :
  (forall i r r', raw !! i = Some r -> raw !! S i = Some r' ->
                  (Audio.raw_starttime r <=? Audio.raw_starttime r')%float = true) ->
  (forall r, last raw = Some r -> (Audio.raw_starttime r <=? d)%float = true) ->
  Forall (fun s => (Audio.starttime s <=? Audio.endtime s)%float = true)
         (Audio.end_times raw d).
Proof.
  induction raw as [|r raw IH]; intros Hnext Hlast; [constructor|].
  cbn [Audio.end_times]. constructor.
  - cbn [Audio.starttime Audio.endtime]. destruct raw as [|r' raw'].
    + apply Hlast. reflexivity.
    + apply (Hnext 0); reflexivity.
  - apply IH.
    + intros i a b Ha Hb. apply (Hnext (S i)); assumption.
    + intros a Ha. apply Hlast. destruct raw; [discriminate | exact Ha].
Qed.

(** X2: ordered events give segments of non-negative duration.  When the
    events' times are non-negative and non-decreasing, the last one does
    not exceed the total duration and the total duration is not negative,
    every derived segment starts no later than it ends. *)
Theorem ordered_events_give_ordered_segments (raw : list Audio.RawTimestamp) (d : float)
    (segs : list Audio.Segment) :
  (forall r, r ∈ raw -> (0 <=? Audio.raw_starttime r)%float = true) ->
  (forall i r r', raw !! i = Some r -> raw !! S i = Some r' ->
                  (Audio.raw_starttime r <=? Audio.raw_starttime r')%float = true) ->
  (forall r, last raw = Some r -> (Audio.raw_starttime r <=? d)%float = true) ->
  (0 <=? d)%float = true ->
  Audio.process_timestamps raw d = Ok segs ->
  Forall (fun s => (Audio.starttime s <=? Audio.endtime s)%float = true) segs.
Proof.
  intros Hpos Hnext Hlast Hd. rewrite process_timestamps_eq. intros [= <-].
  destruct raw as [|first rest]; [constructor|].
  apply (end_times_ordered
           ({| Audio.raw_Folder := Audio.raw_Folder first; Audio.raw_starttime := 0 |} :: rest)
           d).
  - intros [|i] a b Ha Hb.
    + injection Ha as <-. cbn [Audio.raw_starttime]. apply Hpos.
      right. eapply list_elem_of_lookup_2. exact Hb.
    + apply (Hnext (S i)); assumption.
  - intros a Ha. destruct rest as [|r' rest'].
    + injection Ha as <-. exact Hd.
    + apply Hlast. exact Ha.
Qed.

Lemma ordered_events_give_ordered_segments_witness :
  Audio.process_timestamps Fixture.sample_events 15
  = Ok [Fixture.seg "luffy" 0 10; Fixture.seg "naruto" 10 15]
  /\ Forall (fun s => (Audio.starttime s <=? Audio.endtime s)%float = true)
            [Fixture.seg "luffy" 0 10; Fixture.seg "naruto" 10 15].
Proof.
  split; [reflexivity|].
  apply (ordered_events_give_ordered_segments Fixture.sample_events 15).
  - intros r Hr.
    apply elem_of_cons in Hr as [->|Hr]; [reflexivity|].
    apply elem_of_cons in Hr as [->|Hr]; [reflexivity|].
    apply elem_of_nil in Hr. destruct Hr.
  - intros [|[|i]] r r' Hr Hr'; try discriminate.
    injection Hr as <-. injection Hr' as <-. reflexivity.
  - intros r [= <-]. reflexivity.
  - reflexivity.
  - reflexivity.
Defined.

(** ** More on composition ([final.py]) *)

(** X28: a stray file stops the composition.  A listed name that ends in
    [.mp4] and holds no underscore is filed as a group of its own, under
    its whole name, and [process_video_group] raises [IndexError] on that
    group, before it writes or runs anything: the name has no third
    field. *)
Theorem stray_file_raises (engine : Engine) (name : string) (w : World) :
  has_char "_" name = false ->
  PyStr.endswith ".mp4" name = true ->
  Final.group_names [name] = Ok [(name, [name])]
  /\ Final.process_video_group engine [name] w = (Raise IndexError, w).
Proof.
  intros Hplain Hmp4.
  assert (Hsplit : PyStr.split "_segment_" name = [name])
    by apply (split_single_field "_" "segment_" name Hplain).
  split.
  - unfold Final.group_names. cbn [foldl mbind result_bind].
    rewrite Hmp4, Hsplit. reflexivity.
  - unfold Final.process_video_group.
    rewrite (bind_ok _ _ w name w) by reflexivity.
    rewrite (bind_ok _ _ w name w) by (unfold lift; rewrite Hsplit; reflexivity).
    cbv zeta. apply bind_raise. unfold lift, sorted_by_key, Final.segment_index.
    cbn [mapM]. rewrite (split_single_field "_" "" name Hplain). reflexivity.
Qed.

Lemma stray_file_raises_witness :
  has_char "_" "intro.mp4" = false
  /\ PyStr.endswith ".mp4" "intro.mp4" = true
  /\ Final.group_names ["intro.mp4"] = Ok [("intro.mp4", ["intro.mp4"])]
  /\ Final.process_video_group Fixture.ffmpeg_model ["intro.mp4"] Fixture.composition_world
     = (Raise IndexError, Fixture.composition_world).
Proof.
  split; [reflexivity|]. split; [reflexivity|].
  apply (stray_file_raises Fixture.ffmpeg_model "intro.mp4" Fixture.composition_world);
    reflexivity.
Defined.

Lemma filter_head {B} (P : B -> Prop) `{forall x, Decision (P x)} (l : list B) (x : B)
    (rest : list B) :
  filter P l = x :: rest ->
  exists before after,
    l = before ++ x :: after /\ P x /\ Forall (fun y => ~ P y) before.
Proof.
  induction l as [|a l IH]; [discriminate|].
  rewrite filter_cons. destruct (decide (P a)) as [Ha|Ha].
  - intros [= -> _]. exists [], l. split; [reflexivity|]. split; [exact Ha | constructor].
  - intros Hl. destruct (IH Hl) as (before & after & -> & Hx & Hbefore).
    exists (a :: before), after. split; [reflexivity|]. split; [exact Hx|].
    constructor; assumption.
Qed.

(** X29: the narration of a group is the first entry of the audio directory
    whose name starts with the recording's name and ends in [.mp4].
    [get_audio_file] changes nothing; when it returns, no entry listed
    before the chosen one passes the two tests, and the chosen one need not
    be the recording's own file: a longer name with the same beginning,
    listed earlier, is taken instead. *)
Theorem get_audio_file_takes_first_match (segment_base : string) (w w' : World)
    (audio_file : string) :
  Final.get_audio_file segment_base w = (Ok audio_file, w') ->
  let matches f :=
    PyStr.startswith (base_of segment_base) f && PyStr.endswith ".mp4" f = true in
  w' = w
  /\ exists before f after,
       Os.entries (cwd w ++ [Final.AUDIO_DIR]) (files w) = before ++ f :: after
       /\ audio_file = Os.path_join Final.AUDIO_DIR f
       /\ matches f
       /\ Forall (fun g => ~ matches g) before.
Proof.
  unfold Final.get_audio_file. intros H.
  rewrite (bind_ok _ _ w (base_of segment_base) w) in H
    by (unfold lift; rewrite index_base_of; reflexivity).
  apply bind_ok_inv in H as (names & w1 & Hlist & H).
  apply (listdir_plain_inv Final.AUDIO_DIR _ _ _ eq_refl) in Hlist as (-> & _ & ->).
  destruct (filter _ (Os.entries (cwd w ++ [Final.AUDIO_DIR]) (files w)))
    as [|f rest] eqn:E; [discriminate|].
  injection H as <- <-. split; [reflexivity|].
  apply filter_head in E as (before & after & Hl & Hf & Hbefore).
  exists before, f, after. split; [exact Hl|]. split; [reflexivity|].
  split; [exact Hf | exact Hbefore].
Qed.

Lemma get_audio_file_takes_first_match_witness :
  let w := Fixture.world_of [ ("audio", Directory); ("audio/ep10.mp4", Media 9);
                              ("audio/ep1.mp4", Media 5) ] in
  let matches f := PyStr.startswith (base_of "ep1") f && PyStr.endswith ".mp4" f = true in
  Final.get_audio_file "ep1" w = (Ok "audio/ep10.mp4", w)
  /\ w = w
  /\ exists before f after,
       Os.entries (cwd w ++ [Final.AUDIO_DIR]) (files w) = before ++ f :: after
       /\ "audio/ep10.mp4" = Os.path_join Final.AUDIO_DIR f
       /\ matches f
       /\ Forall (fun g => ~ matches g) before.
Proof.
  split; [vm_compute; reflexivity|].
  apply (get_audio_file_takes_first_match "ep1"
           (Fixture.world_of [ ("audio", Directory); ("audio/ep10.mp4", Media 9);
                               ("audio/ep1.mp4", Media 5) ])
           (Fixture.world_of [ ("audio", Directory); ("audio/ep10.mp4", Media 9);
                               ("audio/ep1.mp4", Media 5) ])
           "audio/ep10.mp4").
  vm_compute. reflexivity.
Defined.

(** The unit [process_segment] assembles when the pool is found is written
    under the name [unit_name] gives. *)
Lemma process_segment_assembles (engine : Engine) (base_name : string) (i : nat)
    (segment : Audio.Segment) (clips : list string) (w : World) :
  Segments.get_clips_for_keyword (Audio.Folder segment) w = (Ok clips, w) ->
  Segments.process_segment engine base_name (i, segment) w
  = (Os.print (CreatingSegment i base_name (Audio.duration segment) (Audio.Folder segment)) ;;
     Segments.create_segment engine clips (Audio.duration segment)
       (Os.path_join Segments.SEGMENTS_DIR
          (SegmentsScript.unit_name base_name i (Audio.Folder segment)))) w.
Proof.
  intros Hlookup. unfold Segments.process_segment. cbv zeta.
  rewrite (bind_ok _ _ w (Some clips) w); [reflexivity|].
  apply try_except_ok. rewrite (bind_ok _ _ _ _ _ Hlookup). reflexivity.
Qed.
